(** * KhmerCoders bot: rate limiting, input hygiene, message tracking and
      leaderboards

    A shallow embedding of the logic of
    - [src/utils/security-helpers.ts] (RateLimiter, sanitizeInput, detectAbuse),
    - [src/utils/db-helpers.ts] (trackMessage),
    - [src/utils/stats-helpers.ts] (leaderboards and statistics),
    - [src/index.ts] (the leaderboard route),
    followed by the properties established about them. *)

From Stdlib Require Import ZArith String Ascii.
From stdpp Require Import base tactics option list gmap sorting.

#[local] Open Scope Z_scope.

(** ** JavaScript strings

    A JavaScript string is a sequence of UTF-16 code units; [length],
    [substring], [trim] and regular expressions without the [u] flag all work
    on code units. *)

Module JsString.

Abbreviation jsstring := (list N).

(** A literal, written as a Rocq string of ASCII characters. *)
Fixpoint lit (s : string) : jsstring :=
  match s with
  | EmptyString => []
  | String c s' => N_of_ascii c :: lit s'
  end.

Definition in_range (lo hi c : N) : bool := ((lo <=? c) && (c <=? hi))%N.

(** ECMAScript LineTerminator: LF, CR, LS, PS. *)
Definition isLineTerminator (c : N) : bool :=
  ((c =? 10) || (c =? 13) || (c =? 8232) || (c =? 8233))%N.

(** ECMAScript WhiteSpace: TAB, VT, FF, SP, NBSP, ZWNBSP and the space
    separators (category Zs). *)
Definition isWhiteSpace (c : N) : bool :=
  ((c =? 9) || (c =? 11) || (c =? 12) || (c =? 32) || (c =? 160)
   || (c =? 5760) || in_range 8192 8202 c || (c =? 8239) || (c =? 8287)
   || (c =? 12288) || (c =? 65279))%N.

(** What [String.prototype.trim] and [parseInt] strip. *)
Definition isTrimmable (c : N) : bool := isWhiteSpace c || isLineTerminator c.

Fixpoint trimStart (s : jsstring) : jsstring :=
  match s with
  | c :: s' => if isTrimmable c then trimStart s' else s
  | [] => []
  end.

Definition trimEnd (s : jsstring) : jsstring := rev (trimStart (rev s)).

Definition trim (s : jsstring) : jsstring := trimEnd (trimStart s).

(** [s.substring(0, n)]; a negative [n] is clamped to 0. *)
Definition substring0 (n : Z) (s : jsstring) : jsstring := take (Z.to_nat n) s.

Definition isUpperAscii (c : N) : bool := in_range 65 90 c.
Definition isLowerAscii (c : N) : bool := in_range 97 122 c.
Definition isDigit (c : N) : bool := in_range 48 57 c.

Definition lowerUnit (c : N) : N := if isUpperAscii c then (c + 32)%N else c.
Definition upperUnit (c : N) : N := if isLowerAscii c then (c - 32)%N else c.

(** [toLowerCase], on the ASCII letters.  The only use the code makes of it
    is to compare the result with ['telegram'] and ['discord']; no non-ASCII
    code unit lower-cases to a letter of those two words, so the comparison
    comes out as in JavaScript. *)
Definition toLowerCase (s : jsstring) : jsstring := map lowerUnit s.

(** Case-insensitive equality of code units as a regular expression with the
    [i] flag and without the [u] flag sees it: both sides are upper-cased, and a
    non-ASCII unit is never identified with an ASCII one. *)
Definition eq_ci (a b : N) : bool := (upperUnit a =? upperUnit b)%N.

(** [\w] without the [u] flag. *)
Definition isWordChar (c : N) : bool :=
  isUpperAscii c || isLowerAscii c || isDigit c || (c =? 95)%N.

(** The pattern (a literal) matches case-insensitively at the head of [s]. *)
Fixpoint prefix_ci (pat s : jsstring) : bool :=
  match pat, s with
  | [], _ => true
  | p :: pat', c :: s' => eq_ci p c && prefix_ci pat' s'
  | _ :: _, [] => false
  end.

(** [s.replace(re, '')] for a global regular expression: scan from the left,
    at each position ask [m] for the length of the match that starts there,
    drop that many code units, and go on after them.  [skip] counts the units
    of the current match still to drop. *)
Fixpoint removeAll (m : jsstring -> option nat) (skip : nat) (s : jsstring)
    : jsstring :=
  match s with
  | [] => []
  | c :: s' =>
      match skip with
      | S n => removeAll m n s'
      | O =>
          match m s with
          | Some (S n) => removeAll m n s'
          | _ => c :: removeAll m 0 s'
          end
      end
  end.

(** Lexicographic comparison of code units (dates are compared as text). *)
Fixpoint leb (a b : jsstring) : bool :=
  match a, b with
  | [], _ => true
  | _ :: _, [] => false
  | x :: a', y :: b' => (x <? y)%N || ((x =? y)%N && leb a' b')
  end.

End JsString.

Import JsString.

(** ** Regular expressions

  The patterns of the code that have no back-reference, as a datatype, with
  matching by derivatives.  [test] is [RegExp.prototype.test] on a fresh
  expression: does some substring match. *)

Module Regex.

Inductive regex : Type :=
| Fail
| Eps
| Chr (p : N -> bool)
| Seq (r1 r2 : regex)
| Alt (r1 r2 : regex)
| Star (r : regex).

Fixpoint nullable (r : regex) : bool :=
  match r with
  | Fail => false
  | Eps => true
  | Chr _ => false
  | Seq r1 r2 => nullable r1 && nullable r2
  | Alt r1 r2 => nullable r1 || nullable r2
  | Star _ => true
  end.

Fixpoint deriv (c : N) (r : regex) : regex :=
  match r with
  | Fail => Fail
  | Eps => Fail
  | Chr p => if p c then Eps else Fail
  | Seq r1 r2 =>
      if nullable r1 then Alt (Seq (deriv c r1) r2) (deriv c r2)
      else Seq (deriv c r1) r2
  | Alt r1 r2 => Alt (deriv c r1) (deriv c r2)
  | Star r1 => Seq (deriv c r1) (Star r1)
  end.

Definition accepts (r : regex) (s : jsstring) : bool :=
  nullable (fold_left (fun r c => deriv c r) s r).

(** [.] : any code unit but a line terminator. *)
Definition dot : regex := Chr (fun c => negb (isLineTerminator c)).
Definition any : regex := Chr (fun _ => true).

(** A literal under the [i] flag. *)
Fixpoint lit_ci (pat : jsstring) : regex :=
  match pat with
  | [] => Eps
  | p :: pat' => Seq (Chr (eq_ci p)) (lit_ci pat')
  end.

Definition test (r : regex) (s : jsstring) : bool :=
  accepts (Seq (Star any) (Seq r (Star any))) s.

End Regex.

(** ** The rate limiter ([class RateLimiter]) *)

Module RateLimiter.

Record config : Type := { maxRequests : Z; windowMs : Z }.

(** [private requests: Map<string, number[]>] *)
Abbreviation requests := (gmap jsstring (list Z)).

Section Limiter.
Variable cfg : config.

(** [this.requests.get(key) || []] *)
Definition userRequests (key : jsstring) (s : requests) : list Z :=
  default [] (s !! key).

(** [requests.filter((timestamp) => now - timestamp < this.windowMs)] *)
Definition validRequests (now : Z) (l : list Z) : list Z :=
  filter (fun timestamp => now - timestamp < windowMs cfg) l.

(** [isRateLimited(key)]; [now] is the reading of [Date.now()].  Returns
    the answer and the map afterwards. *)
Definition isRateLimited (key : jsstring) (now : Z) (s : requests)
    : bool * requests :=
  let valid := validRequests now (userRequests key s) in
  if bool_decide (maxRequests cfg <= Z.of_nat (length valid)) then (true, s)
  else (false, <[key := valid ++ [now]]> s).

Definition getRemainingRequests (key : jsstring) (now : Z) (s : requests)
    : Z :=
  let valid := validRequests now (userRequests key s) in
  Z.max 0 (maxRequests cfg - Z.of_nat (length valid)).

(** [Math.min(...userRequests)] on a non-empty array. *)
Definition minimum (x : Z) (l : list Z) : Z := foldr Z.min x l.

Definition getResetTime (key : jsstring) (now : Z) (s : requests) : Z :=
  match userRequests key s with
  | [] => 0
  | x :: l => Z.max 0 (windowMs cfg - (now - minimum x l))
  end.

(** [cleanup()]: every list is filtered; a key whose list becomes empty is
    deleted. *)
Definition cleanup (now : Z) (s : requests) : requests :=
  omap (fun l => match validRequests now l with
                 | [] => None
                 | valid => Some valid
                 end) s.
End Limiter.

(** [commandRateLimiter], [summaryRateLimiter], [apiRateLimiter] *)
Definition commandRateLimiter : config := {| maxRequests := 5; windowMs := 60000 |}.
Definition summaryRateLimiter : config := {| maxRequests := 2; windowMs := 300000 |}.
Definition apiRateLimiter : config := {| maxRequests := 60; windowMs := 60000 |}.

(** A history of the limiter: calls in the order they are made, each with the
    clock reading at the call. *)
Inductive call : Type :=
| CallIsRateLimited (key : jsstring)
| CallGetRemaining (key : jsstring)
| CallCleanup.

Definition step (cfg : config) (s : requests) (e : Z * call) : requests :=
  match e.2 with
  | CallIsRateLimited key => (isRateLimited cfg key e.1 s).2
  | CallGetRemaining _ => s
  | CallCleanup => cleanup cfg e.1 s
  end.

Definition run (cfg : config) (history : list (Z * call)) (s : requests)
    : requests :=
  fold_left (step cfg) history s.

(** The clock readings of the calls [isRateLimited(key)] of a history that
    were accepted (answered [false]). *)
Fixpoint accepted (cfg : config) (key : jsstring) (history : list (Z * call))
    (s : requests) : list Z :=
  match history with
  | [] => []
  | e :: history' =>
      let here :=
        match e.2 with
        | CallIsRateLimited key' =>
            if bool_decide (key' = key) then
              if (isRateLimited cfg key' e.1 s).1 then [] else [e.1]
            else []
        | _ => []
        end in
      here ++ accepted cfg key history' (step cfg s e)
  end.

End RateLimiter.


(** ** Input hygiene ([sanitizeInput], [detectAbuse]) *)

Module Security.

(** The values a caller can pass where TypeScript says [string]. *)
Inductive jsvalue : Type :=
| JsUndefined
| JsNull
| JsBoolean (b : bool)
| JsNumber (z : Z)
| JsString (s : jsstring).

(** [/[<>]/] *)
Definition isAngleBracket (c : N) : bool := ((c =? 60) || (c =? 62))%N.

(** [.replace(/[<>]/g, '')] *)
Definition removeAngleBrackets (s : jsstring) : jsstring :=
  List.filter (fun c => negb (isAngleBracket c)) s.

(** [/javascript:/i] at the head of [s]. *)
Definition matchJavascript (s : jsstring) : option nat :=
  if prefix_ci (lit "javascript:") s then Some 11%nat else None.

(** The length of the run of [\w] units at the head of [s]. *)
Fixpoint wordRun (s : jsstring) : nat :=
  match s with
  | c :: s' => if isWordChar c then S (wordRun s') else 0%nat
  | [] => 0%nat
  end.

(** [/on\w+=/i] at the head of [s].  [\w+] is greedy, and [=] is not a word
    unit, so the only way to match is [on], the whole run of word units that
    follows (at least one), and then [=]. *)
Definition matchEventHandler (s : jsstring) : option nat :=
  if prefix_ci (lit "on") s then
    let w := wordRun (drop 2 s) in
    match w, drop (2 + w) s with
    | S _, c :: _ => if (c =? 61)%N then Some (2 + w + 1)%nat else None
    | _, _ => None
    end
  else None.

Definition stripped (s : jsstring) : jsstring :=
  removeAll matchEventHandler 0
    (removeAll matchJavascript 0 (removeAngleBrackets s)).

(** [sanitizeInput(input, maxLength)]; [None] is [null]. *)
Definition sanitizeInput (input : jsvalue) (maxLength : Z) : option jsstring :=
  match input with
  | JsString ((_ :: _) as s) =>
      let sanitized := trim (stripped s) in
      if bool_decide (maxLength < Z.of_nat (length sanitized))
      then Some (substring0 maxLength sanitized)
      else Some sanitized
  | _ => None
  end.

(** [maxLength: number = 1000] *)
Definition sanitizeInputDefault (input : jsvalue) : option jsstring :=
  sanitizeInput input 1000.

Record abuse : Type := {
  isSpam : bool;
  isFlood : bool;
  containsSuspiciousContent : bool;
  score : Z
}.

(** How many times [c] is repeated at the head of [s]. *)
Fixpoint repeats (c : N) (s : jsstring) : nat :=
  match s with
  | c' :: s' => if (c' =? c)%N then S (repeats c s') else 0%nat
  | [] => 0%nat
  end.

(** [/(.)\1{10,}/] at the head of [s]: a unit that [.] accepts, then at least
    ten more copies of it. *)
Definition repeatedCharsAt (s : jsstring) : bool :=
  match s with
  | c :: s' => negb (isLineTerminator c) && (10 <=? repeats c s')%nat
  | [] => false
  end.

(** [repeatedChars.test(text)] *)
Fixpoint repeatedChars (s : jsstring) : bool :=
  repeatedCharsAt s ||
  match s with
  | _ :: s' => repeatedChars s'
  | [] => false
  end.

(** [(text.match(/[A-Z]/g) || []).length] *)
Definition capsCount (s : jsstring) : nat := length (List.filter isUpperAscii s).

(** [capsPercentage > 0.7 && text.length > 10].  The quotient of two lengths
    exceeds the double [0.7] exactly when [10 * caps > 7 * length]: both
    lengths are far below [2^53]. *)
Definition excessiveCaps (s : jsstring) : bool :=
  (7 * Z.of_nat (length s) <? 10 * Z.of_nat (capsCount s))
  && (10 <? Z.of_nat (length s)).

Import Regex.

Definition gap (a b : regex) : regex := Seq a (Seq (Star dot) b).

Definition suspiciousPatterns : list regex :=
  [ lit_ci (lit "bit.ly");
    lit_ci (lit "tinyurl");
    lit_ci (lit "telegram.me/joinchat");
    lit_ci (lit "discord.gg");
    gap (lit_ci (lit "free")) (lit_ci (lit "crypto"));
    gap (lit_ci (lit "click")) (gap (lit_ci (lit "here")) (lit_ci (lit "now"))) ].

(** [suspiciousPatterns.some(pattern => pattern.test(text))] *)
Definition suspicious (s : jsstring) : bool :=
  existsb (fun pattern => test pattern s) suspiciousPatterns.

Definition isHighSurrogate (c : N) : bool := in_range 0xD800 0xDBFF c.
Definition isLowSurrogate (c : N) : bool := in_range 0xDC00 0xDFFF c.

(** The code points a regular expression with the [u] flag walks over: a
    surrogate pair counts as one, a lone surrogate as itself. *)
Fixpoint codePoints (s : jsstring) : list N :=
  match s with
  | [] => []
  | c :: s' =>
      match s' with
      | d :: s'' =>
          if isHighSurrogate c && isLowSurrogate d
          then (0x10000 + (c - 0xD800) * 0x400 + (d - 0xDC00))%N :: codePoints s''
          else c :: codePoints s'
      | [] => [c]
      end
  end.

Definition isEmoji (p : N) : bool :=
  in_range 0x1F600 0x1F64F p || in_range 0x1F300 0x1F5FF p
  || in_range 0x1F680 0x1F6FF p || in_range 0x2600 0x26FF p
  || in_range 0x2700 0x27BF p.

Definition emojiCount (s : jsstring) : nat :=
  length (List.filter isEmoji (codePoints s)).

(** [emojiCount > text.length * 0.3 && text.length > 5], in integers as for
    the capitals. *)
Definition excessiveEmoji (s : jsstring) : bool :=
  (3 * Z.of_nat (length s) <? 10 * Z.of_nat (emojiCount s))
  && (5 <? Z.of_nat (length s)).

(** [detectAbuse(text)]; [None] is [undefined]. *)
Definition detectAbuse (text : option jsstring) : abuse :=
  match text with
  | None | Some [] =>
      {| isSpam := false; isFlood := false;
         containsSuspiciousContent := false; score := 0 |}
  | Some s =>
      let score := 0 in
      let isFlood := repeatedChars s in
      let score := if isFlood then score + 30 else score in
      let score := if excessiveCaps s then score + 20 else score in
      let containsSuspiciousContent := suspicious s in
      let score := if containsSuspiciousContent then score + 40 else score in
      let score := if excessiveEmoji s then score + 15 else score in
      let isSpam := bool_decide (50 <= score) in
      {| isSpam := isSpam; isFlood := isFlood;
         containsSuspiciousContent := containsSuspiciousContent;
         score := score |}
  end.

(** The text contains a run of [n] copies of one code unit that [ok]
    accepts. *)
Definition hasRun (ok : N -> bool) (n : nat) (s : jsstring) : Prop :=
  exists pre c post, ok c = true /\ s = pre ++ replicate n c ++ post.

(** The points of the three heuristics other than the flood one. *)
Definition otherPoints (s : jsstring) : Z :=
  (if excessiveCaps s then 20 else 0)
  + (if suspicious s then 40 else 0)
  + (if excessiveEmoji s then 15 else 0).

(** How many of the four heuristics fire on a text. *)
Definition fired (s : jsstring) : nat :=
  (Nat.b2n (repeatedChars s) + Nat.b2n (excessiveCaps s)
   + Nat.b2n (suspicious s) + Nat.b2n (excessiveEmoji s))%nat.

(** [sanitizeInput] as the documentation words it: strip, trim, cut. *)
Definition sanitized (s : jsstring) (maxLength : Z) : jsstring :=
  take (Z.to_nat maxLength) (trim (stripped s)).

End Security.


(** ** The store (D1) *)

Module D1.

(** A JavaScript number, as far as the code looks at it: [Number.isInteger],
    comparisons with integers, [Math.min].  [NonInteger] is a finite fraction
    or an infinity. *)
Inductive number : Type :=
| Int (z : Z)
| NaN
| NonInteger.

(** What a call does: return, or throw an [Error] with a message. *)
Inductive outcome (A : Type) : Type :=
| Returns (a : A)
| Throws (message : string).
Arguments Returns {A} a.
Arguments Throws {A} message.

(** A row of [chat_counter] without its key. *)
Record counter : Type := { message_count : Z; message_length : Z }.

(** Modelled from the spec: the schema (the migrations are not among the
    sources).  [users(platform, user_id, display_name)] is unique on
    [(platform, user_id)]; [chat_counter(chat_date, platform, user_id,
    message_count, message_length)] is unique on [(chat_date, platform,
    user_id)], which is also the conflict target the code names.  A table with
    a unique key is a finite map from the key.  [statements] lists the
    statements prepared and run so far, oldest first, each by the operation
    name the code gives it. *)
Record database : Type := {
  users : gmap (jsstring * jsstring) jsstring;
  chat_counter : gmap (jsstring * jsstring * jsstring) counter;
  statements : list string
}.

Definition empty : database :=
  {| users := ∅; chat_counter := ∅; statements := [] |}.

(** [db.prepare(...).bind(...)] followed by [.run()], [.all()] or [.first()]
    under the operation name [operation]. *)
Definition recorded (operation : string) (db : database) : database :=
  {| users := users db; chat_counter := chat_counter db;
     statements := statements db ++ [operation] |}.

(** [INSERT OR IGNORE INTO users (platform, user_id, display_name)] *)
Definition insertOrIgnoreUser (platform user_id display_name : jsstring)
    (db : database) : database :=
  {| users := match users db !! (platform, user_id) with
              | Some _ => users db
              | None => <[(platform, user_id) := display_name]> (users db)
              end;
     chat_counter := chat_counter db;
     statements := statements db |}.

(** [INSERT INTO chat_counter ... VALUES (?, ?, ?, 1, ?) ON CONFLICT
    (chat_date, platform, user_id) DO UPDATE SET message_count = message_count
    + 1, message_length = message_length + ?] *)
Definition upsertCounter (chat_date platform user_id : jsstring)
    (messageLength : Z) (db : database) : database :=
  {| users := users db;
     chat_counter :=
       match chat_counter db !! (chat_date, platform, user_id) with
       | None =>
           <[(chat_date, platform, user_id) :=
               {| message_count := 1; message_length := messageLength |}]>
             (chat_counter db)
       | Some c =>
           <[(chat_date, platform, user_id) :=
               {| message_count := message_count c + 1;
                  message_length := message_length c + messageLength |}]>
             (chat_counter db)
       end;
     statements := statements db |}.

(** [['telegram', 'discord'].includes(x)] *)
Definition supportedPlatforms : list jsstring := [lit "telegram"; lit "discord"].

Definition includes (x : jsstring) (l : list jsstring) : bool :=
  bool_decide (x ∈ l).

(** [!s]: the empty string is falsy. *)
Definition falsy (s : jsstring) : bool :=
  match s with [] => true | _ => false end.

(** [!s || s.trim() === ''] *)
Definition blank (s : jsstring) : bool :=
  falsy s || falsy (trim s).

(** [!platform || !['telegram', 'discord'].includes(platform.toLowerCase())] *)
Definition invalidPlatform (platform : jsstring) : bool :=
  falsy platform || negb (includes (toLowerCase platform) supportedPlatforms).

End D1.

(** ** Message tracking ([trackMessage]) *)

Module Tracking.
Import D1.

(** [validateTrackingParams]: the message of the error thrown, if any. *)
Definition validateTrackingParams (platform userId displayName : jsstring)
    (messageLength : number) : option string :=
  if invalidPlatform platform then Some "Invalid platform"%string
  else if blank userId then Some "User ID is required"%string
  else if blank displayName then Some "Display name is required"%string
  else match messageLength with
       | Int z => if bool_decide (z < 0)
                  then Some "Invalid message length"%string else None
       | _ => Some "Invalid message length"%string
       end.

(** [trackMessage(db, platform, userId, displayName, messageLength)].
    [today] is the date part of [new Date().toISOString()].  The two
    statements run one after the other; the store itself is taken not to
    fail. *)
Definition trackMessage (today platform userId displayName : jsstring)
    (messageLength : number) (db : database) : outcome unit * database :=
  match validateTrackingParams platform userId displayName messageLength,
        messageLength with
  | Some message, _ => (Throws message, db)
  | None, Int len =>
      let sanitizedPlatform := trim (toLowerCase platform) in
      let sanitizedUserId := trim userId in
      let sanitizedDisplayName := trim displayName in
      let db := recorded "trackMessage-ensureUser"
                  (insertOrIgnoreUser sanitizedPlatform sanitizedUserId
                     sanitizedDisplayName db) in
      let db := recorded "trackMessage-updateCounter"
                  (upsertCounter today sanitizedPlatform sanitizedUserId len db) in
      (Returns tt, db)
  | None, _ => (Throws "Invalid message length"%string, db)
  end.

(** One call of [trackMessage], with the clock reading it sees. *)
Record message : Type := {
  msg_today : jsstring;
  msg_platform : jsstring;
  msg_userId : jsstring;
  msg_displayName : jsstring;
  msg_length : number
}.

Definition track (db : database) (m : message) : database :=
  (trackMessage (msg_today m) (msg_platform m) (msg_userId m)
     (msg_displayName m) (msg_length m) db).2.

(** The call passes [validateTrackingParams]. *)
Definition validCall (m : message) : bool :=
  match validateTrackingParams (msg_platform m) (msg_userId m)
          (msg_displayName m) (msg_length m) with
  | None => true
  | Some _ => false
  end.

(** The key of the row of [chat_counter] the call is about. *)
Definition counterKey (m : message) : jsstring * jsstring * jsstring :=
  (msg_today m, trim (toLowerCase (msg_platform m)), trim (msg_userId m)).

(** The validCall calls of a sequence that are about a given row. *)
Definition callsFor (k : jsstring * jsstring * jsstring) (ms : list message)
    : list message :=
  List.filter (fun m => validCall m && bool_decide (counterKey m = k)) ms.

(** The messages of a sequence, tracked in order. *)
Definition trackAll (ms : list message) (db : database) : database :=
  fold_left track ms db.

(** The integer a message length stands for. *)
Definition lengthOf (m : message) : Z :=
  match msg_length m with Int z => z | _ => 0 end.

Definition totalLength (ms : list message) : Z :=
  foldr (fun m total => lengthOf m + total) 0 ms.

End Tracking.


(** ** Statistics and leaderboards ([stats-helpers.ts]) *)

Module Stats.
Import D1.

(** What the functions read off [new Date()]: today's date, the date seven
    days ago and the first day of the current month, each as [YYYY-MM-DD]. *)
Record clock : Type := {
  today : jsstring;
  weekAgo : jsstring;
  startOfMonth : jsstring
}.

(** A row of a leaderboard.  [messages] and [chars] are the columns
    [message_count] and [message_length] of the daily query, [total_messages]
    and [total_length] of the others. *)
Record entry : Type := {
  user_id : jsstring;
  display_name : jsstring;
  messages : Z;
  chars : Z
}.

(** [validateDatabaseParams]: the message of the error thrown, if any. *)
Definition validateDatabaseParams (platform : jsstring) (limit : number)
    : option string :=
  if invalidPlatform platform then Some "Invalid platform"%string
  else match limit with
       | Int z => if bool_decide (z < 1 \/ 1000 < z)
                  then Some "Invalid limit"%string else None
       | _ => Some "Invalid limit"%string
       end.

(** [FROM chat_counter cc JOIN users u ON cc.platform = u.platform AND
    cc.user_id = u.user_id WHERE cc.platform = ? AND <condition on
    cc.chat_date>] *)
Definition joinRow (db : database) (platform : jsstring)
    (dateOk : jsstring -> bool)
    (row : jsstring * jsstring * jsstring * counter) : option entry :=
  let '((d, p, u), c) := row in
  if bool_decide (p = platform) && dateOk d then
    match users db !! (p, u) with
    | Some name =>
        Some {| user_id := u; display_name := name;
                messages := message_count c;
                chars := message_length c |}
    | None => None
    end
  else None.

Definition joined (db : database) (platform : jsstring)
    (dateOk : jsstring -> bool) : list entry :=
  omap (joinRow db platform dateOk) (map_to_list (chat_counter db)).

Definition sumZ (l : list Z) : Z := foldr Z.add 0 l.

(** [GROUP BY cc.user_id, u.display_name] with the two [SUM]s: one row for
    each distinct pair, adding up the rows that carry it. *)
Definition groupKey (e : entry) : jsstring * jsstring :=
  (user_id e, display_name e).

Definition aggregate (rows : list entry) (k : jsstring * jsstring) : entry :=
  let members := List.filter (fun e => bool_decide (groupKey e = k)) rows in
  {| user_id := k.1; display_name := k.2;
     messages := sumZ (map messages members);
     chars := sumZ (map chars members) |}.

Definition groupBy (rows : list entry) : list entry :=
  map (aggregate rows) (remove_dups (map groupKey rows)).

(** [ORDER BY messages DESC, chars DESC]: which of two rows may come first. *)
Definition ranksBefore (a b : entry) : Prop :=
  messages b < messages a \/ (messages a = messages b /\ chars b <= chars a).

#[global] Instance ranksBefore_dec : RelDecision ranksBefore.
Proof. intros a b. unfold ranksBefore. apply _. Defined.

(** The order among rows that agree on both columns is left to the engine;
    the model takes the one its merge sort gives.  [limit: number = 10] of the
    functions below is the caller's to supply here. *)
Definition orderBy (rows : list entry) : list entry :=
  merge_sort ranksBefore rows.

(** [LIMIT ?] *)
Definition limitTo (limit : Z) (rows : list entry) : list entry :=
  take (Z.to_nat limit) rows.

(** [cc.chat_date = ?] and [cc.chat_date >= ?] *)
Definition onDate (date d : jsstring) : bool := bool_decide (d = date).
Definition since (startDate d : jsstring) : bool := leb startDate d.
Definition always (d : jsstring) : bool := true.

(** The shape the four leaderboard functions share: validate, prepare and run
    the one statement, return its rows. *)
Definition leaderboard (operation : string) (platform : jsstring)
    (limit : number) (query : jsstring -> Z -> database -> list entry)
    (db : database) : outcome (list entry) * database :=
  match validateDatabaseParams platform limit, limit with
  | Some message, _ => (Throws message, db)
  | None, Int n => (Returns (query (toLowerCase platform) n db),
                    recorded operation db)
  | None, _ => (Throws "Invalid limit"%string, db)
  end.

(** [date || new Date().toISOString().split("T")[0]] *)
Definition targetDate (clk : clock) (date : option jsstring) : jsstring :=
  match date with
  | Some ((_ :: _) as d) => d
  | _ => today clk
  end.

Definition dailyQuery (date : jsstring) (platform : jsstring) (limit : Z)
    (db : database) : list entry :=
  limitTo limit (orderBy (joined db platform (onDate date))).

Definition summedQuery (dateOk : jsstring -> bool) (platform : jsstring)
    (limit : Z) (db : database) : list entry :=
  limitTo limit (orderBy (groupBy (joined db platform dateOk))).

Definition getDailyLeaderboard (clk : clock) (platform : jsstring)
    (date : option jsstring) (limit : number) (db : database)
    : outcome (list entry) * database :=
  leaderboard "getDailyLeaderboard" platform limit
    (dailyQuery (targetDate clk date)) db.

Definition getWeeklyLeaderboard (clk : clock) (platform : jsstring)
    (limit : number) (db : database) : outcome (list entry) * database :=
  leaderboard "getWeeklyLeaderboard" platform limit
    (summedQuery (since (weekAgo clk))) db.

Definition getMonthlyLeaderboard (clk : clock) (platform : jsstring)
    (limit : number) (db : database) : outcome (list entry) * database :=
  leaderboard "getMonthlyLeaderboard" platform limit
    (summedQuery (since (startOfMonth clk))) db.

Definition getAllTimeLeaderboard (platform : jsstring) (limit : number)
    (db : database) : outcome (list entry) * database :=
  leaderboard "getAllTimeLeaderboard" platform limit (summedQuery always) db.

(** The rows of [chat_counter] of a platform in a period, as (user, count). *)
Definition counts (db : database) (platform : jsstring)
    (dateOk : jsstring -> bool) : list (jsstring * Z) :=
  omap (fun '((d, p, u), c) =>
          if bool_decide (p = platform) && dateOk d
          then Some (u, message_count c) else None)
       (map_to_list (chat_counter db)).

(** [SELECT SUM(message_count) ... WHERE platform = ? AND user_id = ? AND
    <condition on chat_date>], read with [|| 0]. *)
Definition userTotal (db : database) (platform userId : jsstring)
    (dateOk : jsstring -> bool) : Z :=
  sumZ (map snd (List.filter (fun r => bool_decide (r.1 = userId))
                   (counts db platform dateOk))).

(** [user_totals] and [ranked_users]: the totals by user, in the order
    [ORDER BY total_messages DESC]; the rank is the position, from 1. *)
Definition userTotals (db : database) (platform : jsstring)
    : list (jsstring * Z) :=
  let rows := counts db platform always in
  map (fun u => (u, sumZ (map snd (List.filter
                                     (fun r => bool_decide (r.1 = u)) rows))))
      (remove_dups (map fst rows)).

Definition totalBefore (a b : jsstring * Z) : Prop := b.2 <= a.2.

#[global] Instance totalBefore_dec : RelDecision totalBefore.
Proof. intros a b. unfold totalBefore. apply _. Defined.

Definition rankedUsers (db : database) (platform : jsstring)
    : list (jsstring * Z) :=
  merge_sort totalBefore (userTotals db platform).

Definition rankOf (db : database) (platform userId : jsstring) : option Z :=
  (fun found => Z.of_nat (S found.1))
    <$> list_find (fun r => r.1 = userId) (rankedUsers db platform).

Record userStats : Type := {
  daily : Z;
  weekly : Z;
  monthly : Z;
  allTime : Z;
  rank : option Z
}.

Definition getUserStats (clk : clock) (platform userId : jsstring)
    (db : database) : outcome userStats * database :=
  if invalidPlatform platform then (Throws "Invalid platform"%string, db)
  else if blank userId then (Throws "User ID is required"%string, db)
  else
    let p := toLowerCase platform in
    let u := trim userId in
    (Returns {| daily := userTotal db p u (onDate (today clk));
                weekly := userTotal db p u (since (weekAgo clk));
                monthly := userTotal db p u (since (startOfMonth clk));
                allTime := userTotal db p u always;
                rank := rankOf db p u |},
     recorded "getUserStats-rank"
       (recorded "getUserStats-allTime"
          (recorded "getUserStats-monthly"
             (recorded "getUserStats-weekly"
                (recorded "getUserStats-daily" db))))).

Record platformStats : Type := {
  totalUsers : Z;
  totalMessages : Z;
  activeToday : Z;
  activeThisWeek : Z
}.

(** [COUNT(DISTINCT user_id)] *)
Definition countDistinct (l : list jsstring) : Z :=
  Z.of_nat (length (remove_dups l)).

Definition getPlatformStats (clk : clock) (platform : jsstring)
    (db : database) : outcome platformStats * database :=
  match validateDatabaseParams platform (Int 10) with
  | Some message => (Throws message, db)
  | None =>
      let p := toLowerCase platform in
      (Returns
         {| totalUsers :=
              countDistinct
                (map (fun r => r.1.2)
                   (List.filter (fun r => bool_decide (r.1.1 = p))
                      (map_to_list (users db))));
            totalMessages := sumZ (map snd (counts db p always));
            activeToday :=
              countDistinct (map fst (counts db p (onDate (today clk))));
            activeThisWeek :=
              countDistinct (map fst (counts db p (since (weekAgo clk)))) |},
       recorded "getPlatformStats-activeWeek"
         (recorded "getPlatformStats-activeToday"
            (recorded "getPlatformStats-totalMessages"
               (recorded "getPlatformStats-totalUsers" db))))
  end.

(** The users a leaderboard of a platform and a period is about: those with a
    row of [chat_counter] for the platform in the period, and a row of
    [users]. *)
Definition qualifies (db : database) (platform : jsstring)
    (dateOk : jsstring -> bool) (u : jsstring) : Prop :=
  (exists d c, chat_counter db !! (d, platform, u) = Some c /\ dateOk d = true)
  /\ is_Some (users db !! (platform, u)).

(** What the store holds about a user in a period: the rows of
    [chat_counter] of the platform and the user whose date is in the period,
    and the sum of a column over them. *)
Definition inPeriod (platform : jsstring) (dateOk : jsstring -> bool)
    (u : jsstring) (row : jsstring * jsstring * jsstring * counter) : bool :=
  let '((d, p, u'), _) := row in
  bool_decide (p = platform) && bool_decide (u' = u) && dateOk d.

Definition storedSum (column : counter -> Z) (db : database)
    (platform : jsstring) (dateOk : jsstring -> bool) (u : jsstring) : Z :=
  sumZ (map (fun row => column row.2)
          (List.filter (inPeriod platform dateOk u)
             (map_to_list (chat_counter db)))).

(** A row of a leaderboard says of its user what the store holds: the user
    qualifies, the name is the one of [users], and the two numbers are the
    sums of [message_count] and [message_length] over the user's rows of the
    period. *)
Definition describes (db : database) (platform : jsstring)
    (dateOk : jsstring -> bool) (e : entry) : Prop :=
  qualifies db platform dateOk (user_id e)
  /\ users db !! (platform, user_id e) = Some (display_name e)
  /\ messages e = storedSum message_count db platform dateOk (user_id e)
  /\ chars e = storedSum message_length db platform dateOk (user_id e).

(** What is asked of the rows of a leaderboard:
    - they are in the order of [ORDER BY];
    - no user has two rows;
    - every row says of its user what the store holds;
    - they are the first of the ranking: a qualifying user who has no row
      does not rank above any row, by the sums the store holds;
    - there are [min(limit, n)] of them, [n] being the number of qualifying
      users (the length of a list of them without repetition). *)
Definition ranked (limit : Z) (db : database) (platform : jsstring)
    (dateOk : jsstring -> bool) (rows : list entry) : Prop :=
  StronglySorted ranksBefore rows
  /\ NoDup (user_id <$> rows)
  /\ (forall e, e ∈ rows -> describes db platform dateOk e)
  /\ (forall u e,
        qualifies db platform dateOk u -> u ∉ user_id <$> rows -> e ∈ rows ->
        storedSum message_count db platform dateOk u < messages e
        \/ (messages e = storedSum message_count db platform dateOk u
            /\ storedSum message_length db platform dateOk u <= chars e))
  /\ exists us : list jsstring,
       NoDup us
       /\ (forall u, u ∈ us <-> qualifies db platform dateOk u)
       /\ Z.of_nat (length rows) = Z.min limit (Z.of_nat (length us)).

End Stats.


(** ** The leaderboard route ([GET /api/leaderboard/:platform/:period?]) *)

Module Api.
Import D1 Stats.

(** The value of a digit or letter as [parseInt] reads it. *)
Definition digitValue (c : N) : option Z :=
  if isDigit c then Some (Z.of_N c - 48)
  else if isLowerAscii c then Some (Z.of_N c - 87)
  else if isUpperAscii c then Some (Z.of_N c - 55)
  else None.

(** The number the longest prefix of digits of the radix denotes; [None] when
    there is no digit. *)
Fixpoint digits (radix : Z) (acc : option Z) (s : jsstring) : option Z :=
  match s with
  | c :: s' =>
      match digitValue c with
      | Some d =>
          if bool_decide (d < radix)
          then digits radix (Some (radix * default 0 acc + d)) s'
          else acc
      | None => acc
      end
  | [] => acc
  end.

(** [parseInt(s)] with no radix: leading white space, a sign, [0x] for base
    16, then digits; [NaN] when no digit is found. *)
Definition parseInt (s : jsstring) : number :=
  let s := trimStart s in
  let '(sign, s) :=
    match s with
    | c :: s' => if (c =? 45)%N then (-1, s')
                 else if (c =? 43)%N then (1, s') else (1, s)
    | [] => (1, s)
    end in
  let '(radix, s) :=
    match s with
    | c :: x :: s' =>
        if (c =? 48)%N && ((x =? 120) || (x =? 88))%N then (16, s') else (10, s)
    | _ => (10, s)
    end in
  match digits radix None s with
  | Some v => Int (sign * v)
  | None => NaN
  end.

(** [Math.min(n, 100)] for what [parseInt] returns. *)
Definition atMost100 (n : number) : number :=
  match n with
  | Int z => Int (Z.min z 100)
  | _ => NaN
  end.

(** [c.json(...)]: the success body, or [createErrorResponse(message, code,
    statusCode)] sent with that status. *)
Inductive response : Type :=
| Success (platform period : jsstring) (limit : number)
    (leaderboard : list entry) (count : Z)
| Failure (code : string) (statusCode : Z).

Definition status (r : response) : Z :=
  match r with
  | Success _ _ _ _ _ => 200
  | Failure _ statusCode => statusCode
  end.

(** [x || fallback] for an optional string. *)
Definition orElse (x : option jsstring) (fallback : jsstring) : jsstring :=
  match x with
  | Some ((_ :: _) as s) => s
  | _ => fallback
  end.

Definition periods : list jsstring :=
  [lit "daily"; lit "weekly"; lit "monthly"; lit "all"].

(** The handler.  [period] is the optional path parameter, [limitQuery] the
    query parameter [limit]. *)
Definition leaderboardRoute (clk : clock) (platform : jsstring)
    (period limitQuery : option jsstring) (db : database)
    : response * database :=
  let period := orElse period (lit "all") in
  let limit := atMost100 (parseInt (orElse limitQuery (lit "10"))) in
  if negb (includes platform supportedPlatforms)
  then (Failure "INVALID_PLATFORM" 400, db)
  else if negb (includes period periods)
  then (Failure "INVALID_PERIOD" 400, db)
  else
    let '(result, db) :=
      if bool_decide (period = lit "daily")
      then getDailyLeaderboard clk platform None limit db
      else if bool_decide (period = lit "weekly")
      then getWeeklyLeaderboard clk platform limit db
      else if bool_decide (period = lit "monthly")
      then getMonthlyLeaderboard clk platform limit db
      else getAllTimeLeaderboard platform limit db in
    match result with
    | Returns leaderboard =>
        (Success platform period limit leaderboard
           (Z.of_nat (length leaderboard)), db)
    | Throws _ => (Failure "INTERNAL_ERROR" 500, db)
    end.

End Api.


(** ** Rate-limit gates ([app.use("/api/*", ...)] and the command handlers) *)

Module Gate.
Import RateLimiter Api.

(** [Math.ceil(x / 1000)] for an integer [x]. *)
Definition ceilSeconds (x : Z) : Z := - ((- x) / 1000).

(** The check the middleware and the command handlers share:
    [if (limiter.isRateLimited(key)) { const resetTime =
    Math.ceil(limiter.getResetTime(key) / 1000); ... }].  [now] and [later]
    are the readings of [Date.now()] in the two calls.  The answer is the
    number of seconds announced when the request is refused. *)
Definition gate (cfg : config) (key : jsstring) (now later : Z)
    (s : requests) : option Z * requests :=
  let '(limited, s) := isRateLimited cfg key now s in
  if limited
  then (Some (ceilSeconds (getResetTime cfg key later s)), s)
  else (None, s).

(** [c.req.header("cf-connecting-ip") || c.req.header("x-forwarded-for") ||
    "unknown"] *)
Definition clientIp (cfConnectingIp xForwardedFor : option jsstring)
    : jsstring :=
  orElse cfConnectingIp (orElse xForwardedFor (lit "unknown")).

(** The middleware of the [/api/*] routes: [Some seconds] is the answer 429,
    [None] is [await next()]. *)
Definition rateLimitMiddleware (cfConnectingIp xForwardedFor : option jsstring)
    (now later : Z) (s : requests) : option Z * requests :=
  gate apiRateLimiter (clientIp cfConnectingIp xForwardedFor) now later s.

(** What every list a limiter stores should be: not empty, of at most
    [maxRequests] timestamps, none of them later than [bound]. *)
Definition tidy (cfg : config) (bound : Z) (s : requests) : Prop :=
  forall key l, s !! key = Some l ->
    l <> [] /\ Z.of_nat (length l) <= maxRequests cfg
    /\ Forall (fun t => t <= bound) l.

End Gate.

(** ** Common utilities ([utils], with the constants of [CONFIG]) *)

Module Utils.
Import D1 Api.

Definition DEFAULT_LIMIT : Z := 10.
Definition MAX_LIMIT : Z := 100.
Definition PLATFORMS : list jsstring := [lit "telegram"; lit "discord"].
Definition TIME_PERIODS : list jsstring :=
  [lit "daily"; lit "weekly"; lit "monthly"; lit "all"].

Definition isValidPlatform (platform : jsstring) : bool :=
  includes platform PLATFORMS.

Definition isValidTimePeriod (period : jsstring) : bool :=
  includes period TIME_PERIODS.

(** [parseInt(s, 10)]: as [parseInt(s)], but [0x] is not a prefix. *)
Definition parseInt10 (s : jsstring) : number :=
  let s := trimStart s in
  let '(sign, s) :=
    match s with
    | c :: s' => if (c =? 45)%N then (-1, s')
                 else if (c =? 43)%N then (1, s') else (1, s)
    | [] => (1, s)
    end in
  match digits 10 None s with
  | Some v => Int (sign * v)
  | None => NaN
  end.

(** [sanitizeLimit(limit?: string)] *)
Definition sanitizeLimit (limit : option jsstring) : number :=
  match limit with
  | Some ((_ :: _) as limit) =>
      match parseInt10 limit with
      | Int parsedLimit => Int (Z.min (Z.max 1 parsedLimit) MAX_LIMIT)
      | _ => Int DEFAULT_LIMIT
      end
  | _ => Int DEFAULT_LIMIT
  end.

(** [Boolean(userId && userId.trim() !== "")] *)
Definition isValidUserId (userId : jsstring) : bool :=
  negb (falsy userId) && negb (falsy (trim userId)).

End Utils.

(** ** The other routes of [index.ts] *)

Module Routes.
Import D1 Tracking Stats Api.

(** A JSON answer: the body of a success (status 200), or
    [createErrorResponse(message, code, statusCode)]. *)
Inductive reply (A : Type) : Type :=
| Ok (body : A)
| Failed (code : string) (statusCode : Z).
Arguments Ok {A} body.
Arguments Failed {A} code statusCode.

(** [GET /api/stats/:platform] *)
Definition statsRoute (clk : clock) (platform : jsstring) (db : database)
    : reply platformStats * database :=
  if negb (includes platform supportedPlatforms)
  then (Failed "INVALID_PLATFORM" 400, db)
  else
    let '(result, db) := getPlatformStats clk platform db in
    match result with
    | Returns stats => (Ok stats, db)
    | Throws _ => (Failed "INTERNAL_ERROR" 500, db)
    end.

(** [GET /api/user/:platform/:userId] *)
Definition userRoute (clk : clock) (platform userId : jsstring)
    (db : database) : reply userStats * database :=
  if negb (includes platform supportedPlatforms)
  then (Failed "INVALID_PLATFORM" 400, db)
  else if blank userId
  then (Failed "MISSING_USER_ID" 400, db)
  else
    let '(result, db) := getUserStats clk platform userId db in
    match result with
    | Returns stats => (Ok stats, db)
    | Throws _ => (Failed "INTERNAL_ERROR" 500, db)
    end.


(** The three answers of the Discord webhook: [{success: true}],
    [{success: false, error: "No valid message data found"}] (both with status
    200) and [{success: false, error: "Internal server error"}] with status
    500. *)
Inductive webhookReply : Type :=
| Tracked
| NoValidData
| InternalServerError.

Definition webhookStatus (r : webhookReply) : Z :=
  match r with
  | InternalServerError => 500
  | _ => 200
  end.



End Routes.

(** ** Telegram commands ([telegramHandler.ts]) *)

Module Telegram.

(** [text.startsWith(prefix)] *)
Fixpoint startsWith (prefix s : jsstring) : bool :=
  match prefix, s with
  | [], _ => true
  | p :: prefix', c :: s' => (p =? c)%N && startsWith prefix' s'
  | _ :: _, [] => false
  end.

(** [if (!text) return false; return <test on text>;] *)
Definition onText (text : option jsstring) (test : jsstring -> bool) : bool :=
  match text with
  | Some ((_ :: _) as t) => test t
  | _ => false
  end.

Definition isSummaryCommand (text : option jsstring) : bool :=
  onText text (fun t => startsWith (lit "/summary") t).

Definition isPingCommand (text : option jsstring) : bool :=
  onText text (fun t => startsWith (lit "/ping") t).

Definition isHelpCommand (text : option jsstring) : bool :=
  onText text (fun t => startsWith (lit "/help") t).

Definition isStatsCommand (text : option jsstring) : bool :=
  onText text (fun t =>
    startsWith (lit "/stats") t || startsWith (lit "/leaderboard") t).

Definition isMyStatsCommand (text : option jsstring) : bool :=
  onText text (fun t =>
    startsWith (lit "/mystats") t || startsWith (lit "/me") t).

Definition isLeaderboardCommand (text : option jsstring) : bool :=
  onText text (fun t =>
    startsWith (lit "/leaderboard") t || startsWith (lit "/top") t
    || startsWith (lit "/ranking") t).

Definition isDailyCommand (text : option jsstring) : bool :=
  onText text (fun t => startsWith (lit "/daily") t).

Definition isWeeklyCommand (text : option jsstring) : bool :=
  onText text (fun t => startsWith (lit "/weekly") t).

Definition isMonthlyCommand (text : option jsstring) : bool :=
  onText text (fun t => startsWith (lit "/monthly") t).

Definition isAdminCommand (text : option jsstring) : bool :=
  onText text (fun t =>
    startsWith (lit "/admin") t || startsWith (lit "/broadcast") t
    || startsWith (lit "/cleanup") t).

(** The handlers [handleTelegramWebhook] can start. *)
Inductive command : Type :=
| Summary
| Ping
| Help
| StatsCommand
| MyStats
| Leaderboard
| Daily
| Weekly
| Monthly.

(** The chain of [if (message.text && is...Command(message.text)) ... else
    if ...] of [handleTelegramWebhook]: the handler it selects for the text of
    a message. *)
Definition dispatch (text : option jsstring) : option command :=
  if isSummaryCommand text then Some Summary
  else if isPingCommand text then Some Ping
  else if isHelpCommand text then Some Help
  else if isStatsCommand text then Some StatsCommand
  else if isMyStatsCommand text then Some MyStats
  else if isLeaderboardCommand text then Some Leaderboard
  else if isDailyCommand text then Some Daily
  else if isWeeklyCommand text then Some Weekly
  else if isMonthlyCommand text then Some Monthly
  else None.

End Telegram.

(** ** The shortest match of a regular expression *)

Module RegexSize.
Import Regex.

(** The length of the shortest string an expression matches; [None] when it
    matches none. *)
Fixpoint shortest (r : regex) : option nat :=
  match r with
  | Fail => None
  | Eps => Some 0%nat
  | Chr _ => Some 1%nat
  | Seq r1 r2 =>
      match shortest r1, shortest r2 with
      | Some a, Some b => Some (a + b)%nat
      | _, _ => None
      end
  | Alt r1 r2 =>
      match shortest r1, shortest r2 with
      | Some a, Some b => Some (Nat.min a b)
      | Some a, None => Some a
      | None, other => other
      end
  | Star _ => Some 0%nat
  end.

End RegexSize.

(** ** What a store filled by [trackMessage] looks like *)

Module Shape.
Import D1.

(** Every row of [chat_counter] is for a supported platform and a user
    identifier that is trimmed and not empty, has a row of [users] beside it,
    counts at least one message and no negative length. *)
Definition wellFormed (db : database) : Prop :=
  forall d p u c,
    chat_counter db !! (d, p, u) = Some c ->
    p ∈ supportedPlatforms
    /\ u <> [] /\ trim u = u
    /\ is_Some (users db !! (p, u))
    /\ 1 <= message_count c /\ 0 <= message_length c.

(** The row function of [Stats.counts], by name. *)
Definition countRow (platform : jsstring) (dateOk : jsstring -> bool)
    (row : jsstring * jsstring * jsstring * counter) : option (jsstring * Z) :=
  let '((d, p, u), c) := row in
  if bool_decide (p = platform) && dateOk d
  then Some (u, message_count c) else None.

(** The condition on [chat_date] of the leaderboard of a period, as the route
    chooses it. *)
Definition periodFilter (clk : Stats.clock) (period : jsstring)
    : jsstring -> bool :=
  if bool_decide (period = lit "daily") then Stats.onDate (Stats.today clk)
  else if bool_decide (period = lit "weekly")
  then Stats.since (Stats.weekAgo clk)
  else if bool_decide (period = lit "monthly")
  then Stats.since (Stats.startOfMonth clk)
  else Stats.always.

(** The accepted calls of a sequence that are for a platform. *)
Definition callsOn (platform : jsstring) (ms : list Tracking.message)
    : list Tracking.message :=
  List.filter
    (fun m => Tracking.validCall m
              && bool_decide (trim (toLowerCase (Tracking.msg_platform m))
                              = platform)) ms.

End Shape.

(** ** Sample inputs *)

Module Samples.
Import RateLimiter.

(** A limiter of two requests a second, and two calls from one address. *)
Definition twoPerSecond : config := {| maxRequests := 2; windowMs := 1000 |}.

Definition twoCalls : list (Z * call) :=
  [(0, CallIsRateLimited (lit "ip")); (10, CallIsRateLimited (lit "ip"))].

(** Sixty requests to [/api/*] from one address, one every millisecond from
    the reading 0 on. *)
Definition sixtyRequests : list (Z * call) :=
  map (fun i => (Z.of_nat i, CallIsRateLimited (lit "10.0.0.1"))) (seq 0 60).

(** Three tracked messages: a user, the same user under another name and
    spelling of the platform, and somebody else. *)
Definition annFirst : Tracking.message :=
  {| Tracking.msg_today := lit "2024-01-10";
     Tracking.msg_platform := lit "Telegram";
     Tracking.msg_userId := lit " 42 ";
     Tracking.msg_displayName := lit "Ann";
     Tracking.msg_length := D1.Int 5 |}.

Definition annRenamed : Tracking.message :=
  {| Tracking.msg_today := lit "2024-01-10";
     Tracking.msg_platform := lit "telegram";
     Tracking.msg_userId := lit "42";
     Tracking.msg_displayName := lit "Annie";
     Tracking.msg_length := D1.Int 7 |}.

Definition bob : Tracking.message :=
  {| Tracking.msg_today := lit "2024-01-10";
     Tracking.msg_platform := lit "telegram";
     Tracking.msg_userId := lit "7";
     Tracking.msg_displayName := lit "Bob";
     Tracking.msg_length := D1.Int 30 |}.

Definition annToday : jsstring * jsstring * jsstring :=
  (lit "2024-01-10", lit "telegram", lit "42").

(** A clock, and the store after the three messages. *)
Definition january : Stats.clock :=
  {| Stats.today := lit "2024-01-10";
     Stats.weekAgo := lit "2024-01-03";
     Stats.startOfMonth := lit "2024-01-01" |}.

Definition threeMessages : D1.database :=
  Tracking.trackAll [annFirst; bob; annRenamed] D1.empty.

End Samples.


(** * Properties *)

(** ** The rate limiter *)

Module RateLimiterFacts.
Import RateLimiter Samples.

Section Window.
Variable cfg : config.

Lemma validRequests_app (now : Z) (l1 l2 : list Z) :
  validRequests cfg now (l1 ++ l2)
  = validRequests cfg now l1 ++ validRequests cfg now l2.
Proof. unfold validRequests. apply filter_app. Qed.

(** Once a timestamp has left the window it stays out: filtering at an
    earlier reading first changes nothing. *)
Lemma validRequests_later (t now : Z) (l : list Z) :
  t <= now ->
  validRequests cfg now (validRequests cfg t l) = validRequests cfg now l.
Proof.
  intros Hle. unfold validRequests.
  induction l as [|x l IH]; [done|].
  rewrite !filter_cons.
  destruct (decide (t - x < windowMs cfg)) as [Hin|Hout].
  - rewrite filter_cons. rewrite IH. done.
  - rewrite IH. destruct (decide (now - x < windowMs cfg)); [lia|done].
Qed.

Lemma userRequests_insert_eq (key : jsstring) (l : list Z) (s : requests) :
  userRequests key (<[key := l]> s) = l.
Proof. unfold userRequests. by rewrite lookup_insert_eq. Qed.

Lemma userRequests_insert_ne (key key' : jsstring) (l : list Z) (s : requests) :
  key' <> key -> userRequests key (<[key' := l]> s) = userRequests key s.
Proof. intros Hne. unfold userRequests. by rewrite lookup_insert_ne. Qed.

Lemma userRequests_cleanup (key : jsstring) (t : Z) (s : requests) :
  userRequests key (cleanup cfg t s)
  = validRequests cfg t (userRequests key s).
Proof.
  unfold userRequests, cleanup. rewrite lookup_omap.
  destruct (s !! key) as [l|]; simpl; [|done].
  by destruct (validRequests cfg t l).
Qed.

(** What one call leaves in the window of a later reading. *)
Lemma step_window (key : jsstring) (now : Z) (s : requests) (e : Z * call) :
  e.1 <= now ->
  validRequests cfg now (userRequests key (step cfg s e))
  = validRequests cfg now (userRequests key s)
    ++ validRequests cfg now (accepted cfg key [e] s).
Proof.
  intros Hle. destruct e as [t c]. simpl in Hle.
  unfold step, accepted; simpl.
  destruct c as [key'|key'|]; simpl.
  - unfold isRateLimited.
    case_bool_decide as Hfull; simpl.
    + case_bool_decide; simpl; by rewrite app_nil_r.
    + case_bool_decide as Hkey; simpl.
      * subst key'. rewrite userRequests_insert_eq, validRequests_app.
        by rewrite validRequests_later.
      * rewrite userRequests_insert_ne by done. by rewrite app_nil_r.
  - by rewrite app_nil_r.
  - rewrite userRequests_cleanup, validRequests_later by done.
    by rewrite app_nil_r.
Qed.

Lemma accepted_cons (key : jsstring) (e : Z * call) (history : list (Z * call)) (s : requests) :
  accepted cfg key (e :: history) s
  = accepted cfg key [e] s ++ accepted cfg key history (step cfg s e).
Proof. simpl. by rewrite app_nil_r. Qed.

(** The window of a key after a history: what was in it before, and the
    accepted calls of the history that are still young enough. *)
Lemma run_window (key : jsstring) (now : Z) (history : list (Z * call)) (s : requests) :
  Forall (fun e => e.1 <= now) history ->
  validRequests cfg now (userRequests key (run cfg history s))
  = validRequests cfg now (userRequests key s)
    ++ validRequests cfg now (accepted cfg key history s).
Proof.
  intros Hle. revert s.
  induction Hle as [|e history He _ IH]; intros s.
  - simpl. by rewrite app_nil_r.
  - rewrite accepted_cons, validRequests_app, app_assoc.
    rewrite <- (step_window key now s e He).
    apply IH.
Qed.

(** Claim C2.  Let a history of calls run, none later than the reading
    [now]:
    - when [maxRequests] calls [isRateLimited(key)] of the history were
      accepted less than [windowMs] before [now], the call at [now] answers
      [true] and leaves the map as it is, so no timestamp is recorded;
    - when no timestamp of the key is left in the window (none before the
      history, and no accepted call since), the call at [now] answers [false]
      and records [now], for a limiter that allows a request at all
      ([maxRequests >= 1], as the claim's [(R+1)]-th call supposes and the
      three limiters of the program do, with 5, 2 and 60). *)
Theorem limiter_enforces_window (key : jsstring) (now : Z)
    (history : list (Z * call)) (s : requests) :
  Forall (fun e => e.1 <= now) history ->
  (maxRequests cfg
     <= Z.of_nat (length (validRequests cfg now (accepted cfg key history s))) ->
   isRateLimited cfg key now (run cfg history s) = (true, run cfg history s))
  /\ (1 <= maxRequests cfg ->
      validRequests cfg now (userRequests key s) = [] ->
      validRequests cfg now (accepted cfg key history s) = [] ->
      (isRateLimited cfg key now (run cfg history s)).1 = false
      /\ userRequests key (isRateLimited cfg key now (run cfg history s)).2
         = [now]).
Proof.
  intros Hle.
  pose proof (run_window key now history s Hle) as Hwin.
  unfold isRateLimited. rewrite Hwin. split.
  - intros Hfull. rewrite bool_decide_eq_true_2; [done|].
    rewrite length_app. lia.
  - intros Hpos Hold Hnone. rewrite Hold, Hnone. simpl.
    rewrite bool_decide_eq_false_2 by lia. simpl.
    by rewrite userRequests_insert_eq.
Qed.

(** Claim C9.  A [cleanup()] at reading [t] does not change what a later
    [isRateLimited(key)] or [getRemainingRequests(key)] answers. *)
Theorem cleanup_is_transparent (key : jsstring) (t now : Z) (s : requests) :
  t <= now ->
  (isRateLimited cfg key now (cleanup cfg t s)).1
  = (isRateLimited cfg key now s).1
  /\ getRemainingRequests cfg key now (cleanup cfg t s)
     = getRemainingRequests cfg key now s.
Proof.
  intros Hle. unfold isRateLimited, getRemainingRequests.
  rewrite userRequests_cleanup, validRequests_later by done.
  split; [|done]. by case_bool_decide.
Qed.

End Window.

Lemma limiter_enforces_window_witness :
  isRateLimited twoPerSecond (lit "ip") 20 (run twoPerSecond twoCalls ∅)
  = (true, run twoPerSecond twoCalls ∅)
  /\ (isRateLimited twoPerSecond (lit "ip") 5000
        (run twoPerSecond twoCalls ∅)).1 = false.
Proof.
  split.
  - apply (limiter_enforces_window twoPerSecond (lit "ip") 20 twoCalls ∅).
    + repeat constructor; simpl; lia.
    + vm_compute. discriminate.
  - apply (limiter_enforces_window twoPerSecond (lit "ip") 5000 twoCalls ∅).
    + repeat constructor; simpl; lia.
    + simpl. lia.
    + reflexivity.
    + vm_compute. reflexivity.
Defined.

Lemma cleanup_is_transparent_witness :
  (isRateLimited twoPerSecond (lit "ip") 20
     (cleanup twoPerSecond 15 (run twoPerSecond twoCalls ∅))).1
  = (isRateLimited twoPerSecond (lit "ip") 20 (run twoPerSecond twoCalls ∅)).1
  /\ getRemainingRequests twoPerSecond (lit "ip") 20
       (cleanup twoPerSecond 15 (run twoPerSecond twoCalls ∅))
     = getRemainingRequests twoPerSecond (lit "ip") 20
         (run twoPerSecond twoCalls ∅).
Proof.
  apply (cleanup_is_transparent twoPerSecond (lit "ip") 15 20). lia.
Defined.

End RateLimiterFacts.

(** ** Input hygiene *)

Module SecurityFacts.
Import Security.

(** *** The sanitizer *)

Lemma Forall_removeAll (P : N -> Prop) (m : jsstring -> option nat)
    (skip : nat) (s : jsstring) :
  Forall P s -> Forall P (removeAll m skip s).
Proof.
  intros Hs. revert skip.
  induction Hs as [|c s Hc Hs IH]; intros skip; simpl; [done|].
  destruct skip as [|n]; [|apply IH].
  destruct (m (c :: s)) as [[|n]|]; try apply IH; by constructor.
Qed.

Lemma Forall_trimStart (P : N -> Prop) (s : jsstring) :
  Forall P s -> Forall P (trimStart s).
Proof.
  induction 1 as [|c s Hc Hs IH]; simpl; [done|].
  destruct (isTrimmable c); [done | by constructor].
Qed.

Lemma Forall_trim (P : N -> Prop) (s : jsstring) :
  Forall P s -> Forall P (trim s).
Proof.
  intros Hs. unfold trim, trimEnd.
  apply Forall_rev, Forall_trimStart, Forall_rev. by apply Forall_trimStart.
Qed.

Lemma trimStart_idemp (s : jsstring) : trimStart (trimStart s) = trimStart s.
Proof.
  induction s as [|c s IH]; simpl; [done|].
  destruct (isTrimmable c) eqn:Hc; [done|]. simpl. by rewrite Hc.
Qed.

Lemma trimStart_snoc (l : jsstring) (c : N) :
  isTrimmable c = false -> trimStart (l ++ [c]) = trimStart l ++ [c].
Proof.
  intros Hc. induction l as [|x l IH]; simpl.
  - by rewrite Hc.
  - by destruct (isTrimmable x).
Qed.

Lemma trimEnd_cons (c : N) (t : jsstring) :
  isTrimmable c = false -> trimEnd (c :: t) = c :: trimEnd t.
Proof.
  intros Hc. unfold trimEnd. simpl rev at 2.
  rewrite trimStart_snoc by done. by rewrite rev_unit.
Qed.

(** The head of a string that [trimStart] leaves alone. *)
Lemma trimStart_fixed (s : jsstring) :
  trimStart s = s
  <-> match s with c :: _ => isTrimmable c = false | [] => True end.
Proof.
  destruct s as [|c s]; simpl; [done|].
  destruct (isTrimmable c) eqn:Hc; split; try done.
  intros Heq.
  assert (Hlen : (length (trimStart s) <= length s)%nat).
  { clear. induction s as [|x s IH]; simpl; [done|].
    destruct (isTrimmable x); simpl; lia. }
  rewrite Heq in Hlen. simpl in Hlen. lia.
Qed.

Lemma trimStart_trim (s : jsstring) : trimStart (trim s) = trim s.
Proof.
  unfold trim.
  pose proof (trimStart_idemp s) as Hfix. apply trimStart_fixed in Hfix.
  destruct (trimStart s) as [|c t]; [done|].
  rewrite trimEnd_cons by done. simpl. by rewrite Hfix.
Qed.

Lemma trimEnd_trim (s : jsstring) : trimEnd (trim s) = trim s.
Proof.
  unfold trim, trimEnd. by rewrite rev_involutive, trimStart_idemp.
Qed.

Lemma trimStart_take (n : nat) (r : jsstring) :
  trimStart r = r -> trimStart (take n r) = take n r.
Proof.
  rewrite !trimStart_fixed. by destruct r, n.
Qed.

Lemma removeAngleBrackets_clean (s : jsstring) :
  Forall (fun c => isAngleBracket c = false) (removeAngleBrackets s).
Proof.
  unfold removeAngleBrackets. apply List.Forall_forall.
  intros c Hc. apply List.filter_In in Hc as [_ Hc].
  by apply negb_true_iff.
Qed.

(** The code's conditional cut is a plain cut. *)
Lemma sanitizeInput_sanitized (c : N) (s : jsstring) (maxLength : Z) :
  sanitizeInput (JsString (c :: s)) maxLength
  = Some (sanitized (c :: s) maxLength).
Proof.
  unfold sanitizeInput, sanitized, substring0.
  case_bool_decide as Hlong; [done|].
  by rewrite take_ge by lia.
Qed.

(** Claim C6, as amended.  [sanitizeInput] returns [null] unless the input is
    a non-empty string.  For a non-empty string it returns the input with the
    three patterns removed, trimmed, and cut to [maxLength] units; the result
    has no angle bracket, no leading white space, at most [max(maxLength, 0)]
    units, and no trailing white space when nothing had to be cut. *)
Theorem sanitizeInput_result (input : jsvalue) (maxLength : Z) :
  match input with
  | JsString ((_ :: _) as s) =>
      exists r,
        sanitizeInput input maxLength = Some r
        /\ r = sanitized s maxLength
        /\ Forall (fun c => isAngleBracket c = false) r
        /\ trimStart r = r
        /\ Z.of_nat (length r) <= Z.max 0 maxLength
        /\ (Z.of_nat (length (trim (stripped s))) <= maxLength ->
            trimEnd r = r)
  | _ => sanitizeInput input maxLength = None
  end.
Proof.
  destruct input as [| | | |[|c s]]; try reflexivity.
  exists (sanitized (c :: s) maxLength).
  split; [apply sanitizeInput_sanitized|]. split; [done|].
  unfold sanitized. repeat split.
  - apply Forall_take, Forall_trim. unfold stripped.
    do 2 apply Forall_removeAll. apply removeAngleBrackets_clean.
  - apply trimStart_take, trimStart_trim.
  - rewrite length_take. lia.
  - intros Hfits. rewrite take_ge by lia. apply trimEnd_trim.
Qed.

Lemma sanitizeInput_result_witness :
  trimEnd (sanitized (lit " <b>hi</b> ") 1000)
  = sanitized (lit " <b>hi</b> ") 1000.
Proof.
  destruct (sanitizeInput_result (JsString (lit " <b>hi</b> ")) 1000)
    as (r & _ & -> & _ & _ & _ & Htrimmed).
  apply Htrimmed. vm_compute. discriminate.
Defined.

(** Claim C6 as written fails where the cut falls after white space, and for
    a negative [maxLength]: ["a b"] cut to 2 units is ["a "], which ends in a
    space; with [maxLength = -1] the result is the empty string, whose length
    is not at most -1. *)
Lemma cut_leaves_trailing_space :
  sanitizeInput (JsString (lit "a b")) 2 = Some (lit "a ")
  /\ trimEnd (lit "a ") <> lit "a "
  /\ sanitizeInput (JsString (lit "ab")) (-1) = Some []
  /\ ~ (Z.of_nat (length (@nil N)) <= -1).
Proof. repeat split; [discriminate | lia]. Qed.

(** *** The flood heuristic *)

Lemma repeats_ge (c : N) (n : nat) (s : jsstring) :
  (n <= repeats c s)%nat <-> exists post, s = replicate n c ++ post.
Proof.
  revert s. induction n as [|n IH]; intros s.
  - split; [intros _; by exists s | intros _; lia].
  - destruct s as [|c' s]; simpl.
    + split; [lia | intros [post Hpost]; discriminate].
    + destruct (N.eqb_spec c' c) as [->|Hne].
      * rewrite <- Nat.succ_le_mono, IH.
        split; intros [post Hpost]; exists post; congruence.
      * split; [lia | intros [post Hpost]; congruence].
Qed.

Lemma repeatedCharsAt_spec (s : jsstring) :
  repeatedCharsAt s = true
  <-> exists c post, isLineTerminator c = false /\ s = replicate 11 c ++ post.
Proof.
  destruct s as [|c s]; unfold repeatedCharsAt.
  - split; [done | intros (c & post & _ & Hs); discriminate].
  - rewrite andb_true_iff, negb_true_iff, Nat.leb_le, repeats_ge.
    split.
    + intros [Hc [post ->]]. by exists c, post.
    + intros (c' & post & Hc & Hs). injection Hs as -> ->.
      split; [done | by exists post].
Qed.

Lemma repeatedChars_spec (s : jsstring) :
  repeatedChars s = true
  <-> hasRun (fun c => negb (isLineTerminator c)) 11 s.
Proof.
  unfold hasRun. induction s as [|a s IH].
  - simpl. split; [done|].
    intros (pre & c & post & _ & Hs). by destruct pre.
  - change (repeatedChars (a :: s))
      with (repeatedCharsAt (a :: s) || repeatedChars s).
    rewrite orb_true_iff, repeatedCharsAt_spec, IH. split.
    + intros [(c & post & Hc & Hs) | (pre & c & post & Hc & Hs)].
      * exists [], c, post. by rewrite Hc.
      * exists (a :: pre), c, post. by rewrite Hs.
    + intros (pre & c & post & Hc & Hs).
      apply negb_true_iff in Hc.
      destruct pre as [|a' pre].
      * left. by exists c, post.
      * right. injection Hs as -> ->. exists pre, c, post.
        by rewrite Hc.
Qed.

Lemma score_split (s : jsstring) :
  score (detectAbuse (Some s))
  = (if repeatedChars s then 30 else 0) + otherPoints s.
Proof.
  unfold otherPoints. destruct s as [|c s]; [reflexivity|].
  unfold detectAbuse. cbn [score].
  destruct (repeatedChars (c :: s)), (excessiveCaps (c :: s)),
    (suspicious (c :: s)), (excessiveEmoji (c :: s)); reflexivity.
Qed.

(** What the flood test does see: [isFlood] holds exactly when the text has a
    run of 11 copies of a code unit that is not a line terminator, and exactly
    then 30 points are added to those of the other heuristics; [isSpam] is
    [score >= 50]; an undefined or empty text gives all-false and score 0. *)
Lemma flood_on_other_runs (text : option jsstring) :
  (isFlood (detectAbuse text) = true
   <-> hasRun (fun c => negb (isLineTerminator c)) 11 (default [] text))
  /\ score (detectAbuse text)
     = (if isFlood (detectAbuse text) then 30 else 0)
       + otherPoints (default [] text)
  /\ isSpam (detectAbuse text) = bool_decide (50 <= score (detectAbuse text))
  /\ detectAbuse None
     = {| isSpam := false; isFlood := false;
          containsSuspiciousContent := false; score := 0 |}
  /\ detectAbuse (Some [])
     = {| isSpam := false; isFlood := false;
          containsSuspiciousContent := false; score := 0 |}.
Proof.
  assert (Hempty : ~ hasRun (fun c => negb (isLineTerminator c)) 11 []).
  { intros (pre & c & post & _ & Hs). by destruct pre. }
  destruct text as [[|c s]|]; simpl default;
    try (repeat split; try done; intros Hrun; by destruct Hempty).
  repeat split; try done.
  - intros Hflood. by apply repeatedChars_spec.
  - intros Hrun. by apply repeatedChars_spec.
  - by rewrite score_split.
Qed.

Lemma flood_on_capitals :
  isFlood (detectAbuse (Some (lit "AAAAAAAAAAAAAAA"))) = true.
Proof.
  apply (proj1 (flood_on_other_runs (Some (lit "AAAAAAAAAAAAAAA")))).
  exists [], 65%N, (lit "AAAA"). split; reflexivity.
Qed.

(** *** Runs of line terminators *)

Lemma repeats_app_other (a c : N) (pre s : jsstring) :
  c <> a -> repeats a (pre ++ c :: s) = repeats a pre.
Proof.
  intros Hne. induction pre as [|b pre IH]; simpl.
  - by apply N.eqb_neq in Hne as ->.
  - destruct (b =? a)%N; [by rewrite IH | done].
Qed.

Lemma repeatedChars_cons (c : N) (s : jsstring) :
  repeatedChars (c :: s) = repeatedCharsAt (c :: s) || repeatedChars s.
Proof. reflexivity. Qed.

(** The pattern cannot start on a line terminator, nor run across one. *)
Lemma repeatedChars_line_terminator (c : N) (s : jsstring) :
  isLineTerminator c = true -> repeatedChars (c :: s) = repeatedChars s.
Proof.
  intros Hc. rewrite repeatedChars_cons. unfold repeatedCharsAt.
  by rewrite Hc.
Qed.

Lemma repeatedChars_across (c : N) (pre s : jsstring) :
  isLineTerminator c = true ->
  repeatedChars (pre ++ c :: s) = repeatedChars pre || repeatedChars s.
Proof.
  intros Hc. induction pre as [|a pre IH].
  - by apply repeatedChars_line_terminator.
  - rewrite <- app_comm_cons, !repeatedChars_cons, IH, orb_assoc.
    f_equal. unfold repeatedCharsAt.
    destruct (isLineTerminator a) eqn:Ha; [done|].
    rewrite repeats_app_other; [done|]. congruence.
Qed.

Lemma repeatedChars_terminators (c : N) (n : nat) (s : jsstring) :
  isLineTerminator c = true ->
  repeatedChars (replicate n c ++ s) = repeatedChars s.
Proof.
  intros Hc. induction n as [|n IH]; [done|].
  simpl replicate. rewrite <- app_comm_cons.
  by rewrite repeatedChars_line_terminator.
Qed.

(** Claim C7 at its failing inputs.  A run of line terminators (LF, CR,
    U+2028, U+2029), however long, is not a flood for [detectAbuse]: the text
    [pre ++ c ... c ++ post] with [n >= 11] copies of a line terminator [c]
    contains a run of at least 11 identical characters, yet [isFlood] is
    [false] and no 30 points are added, whenever the flood test finds nothing
    in [pre] and in [post]. *)
Theorem flood_misses_line_terminators (c : N) (n : nat)
    (pre post : jsstring) :
  isLineTerminator c = true -> (11 <= n)%nat ->
  repeatedChars pre = false -> repeatedChars post = false ->
  hasRun (fun _ => true) 11 (pre ++ replicate n c ++ post)
  /\ isFlood (detectAbuse (Some (pre ++ replicate n c ++ post))) = false
  /\ score (detectAbuse (Some (pre ++ replicate n c ++ post)))
     = otherPoints (pre ++ replicate n c ++ post).
Proof.
  intros Hc Hn Hpre Hpost.
  assert (Hmissed : repeatedChars (pre ++ replicate n c ++ post) = false).
  { destruct n as [|n]; [lia|]. simpl replicate. rewrite <- app_comm_cons.
    rewrite repeatedChars_across, repeatedChars_terminators by done.
    by rewrite Hpre, Hpost. }
  split; [|split].
  - exists pre, c, (replicate (n - 11) c ++ post). split; [done|].
    f_equal. rewrite (app_assoc (replicate 11 c)), <- replicate_add.
    do 2 f_equal. lia.
  - destruct n as [|n]; [lia|]. simpl replicate.
    destruct pre; simpl in *; exact Hmissed.
  - rewrite score_split, Hmissed. lia.
Qed.

Lemma flood_misses_line_terminators_witness :
  hasRun (fun _ => true) 11 (replicate 11 10%N)
  /\ isFlood (detectAbuse (Some (replicate 11 10%N))) = false
  /\ score (detectAbuse (Some (replicate 11 10%N)))
     = otherPoints (replicate 11 10%N).
Proof.
  apply (flood_misses_line_terminators 10%N 11 [] []).
  - reflexivity.
  - lia.
  - reflexivity.
  - reflexivity.
Defined.

(** Eleven line feeds, and eleven line feeds inside a message, pass
    [detectAbuse] with nothing flagged. *)
Lemma line_feed_run_scores_nothing :
  detectAbuse (Some (replicate 11 10%N))
  = {| isSpam := false; isFlood := false;
       containsSuspiciousContent := false; score := 0 |}
  /\ detectAbuse (Some (lit "hello" ++ replicate 11 10%N ++ lit "world"))
     = {| isSpam := false; isFlood := false;
          containsSuspiciousContent := false; score := 0 |}.
Proof. split; reflexivity. Qed.

(** Claim C10.  The score is the sum of the points of the heuristics that
    fire, 30, 20, 40 and 15, hence between 0 and 105; a text classified as
    spam fires at least two of them; a text that fires the suspicious-content
    heuristic alone scores 40 and is not spam. *)
Theorem detectAbuse_score_composition (text : option jsstring) :
  score (detectAbuse text)
  = (if repeatedChars (default [] text) then 30 else 0)
    + (if excessiveCaps (default [] text) then 20 else 0)
    + (if suspicious (default [] text) then 40 else 0)
    + (if excessiveEmoji (default [] text) then 15 else 0)
  /\ 0 <= score (detectAbuse text) <= 105
  /\ (isSpam (detectAbuse text) = true -> (2 <= fired (default [] text))%nat)
  /\ (suspicious (default [] text) = true ->
      repeatedChars (default [] text) = false ->
      excessiveCaps (default [] text) = false ->
      excessiveEmoji (default [] text) = false ->
      score (detectAbuse text) = 40 /\ isSpam (detectAbuse text) = false).
Proof.
  destruct text as [[|c s]|]; simpl default;
    try (repeat split; try done; simpl; lia).
  unfold detectAbuse, fired. cbn [score isSpam].
  destruct (repeatedChars (c :: s)), (excessiveCaps (c :: s)),
    (suspicious (c :: s)), (excessiveEmoji (c :: s));
    repeat split; simpl; intros; try done; try lia.
Qed.

Lemma detectAbuse_score_composition_witness :
  (2 <= fired (lit "AAAAAAAAAAAAAAA"))%nat
  /\ score (detectAbuse (Some (lit "see bit.ly"))) = 40
  /\ isSpam (detectAbuse (Some (lit "see bit.ly"))) = false.
Proof.
  split.
  - apply (detectAbuse_score_composition (Some (lit "AAAAAAAAAAAAAAA"))).
    reflexivity.
  - apply (detectAbuse_score_composition (Some (lit "see bit.ly")));
      reflexivity.
Defined.

End SecurityFacts.

(** ** Message tracking *)

Module TrackingFacts.
Import D1 Tracking Samples.

(** An accepted call runs the two statements, with an integer length that is
    not negative. *)
Lemma trackMessage_validCall (m : message) (db : database) :
  validCall m = true ->
  exists len,
    msg_length m = Int len /\ 0 <= len /\ lengthOf m = len
    /\ trackMessage (msg_today m) (msg_platform m) (msg_userId m)
         (msg_displayName m) (msg_length m) db
       = (Returns tt,
          recorded "trackMessage-updateCounter"
            (upsertCounter (msg_today m) (trim (toLowerCase (msg_platform m)))
               (trim (msg_userId m)) len
               (recorded "trackMessage-ensureUser"
                  (insertOrIgnoreUser (trim (toLowerCase (msg_platform m)))
                     (trim (msg_userId m)) (trim (msg_displayName m)) db)))).
Proof.
  unfold validCall, trackMessage, lengthOf.
  destruct (validateTrackingParams _ _ _ _) as [message|] eqn:Hvalid; [done|].
  intros _. unfold validateTrackingParams in Hvalid.
  destruct (invalidPlatform _); [done|].
  destruct (blank (msg_userId m)); [done|].
  destruct (blank (msg_displayName m)); [done|].
  destruct (msg_length m) as [len| |]; try done.
  case_bool_decide; [done|].
  exists len. repeat split. lia.
Qed.

(** A refused call leaves the store as it is. *)
Lemma track_refused (m : message) (db : database) :
  validCall m = false -> track db m = db.
Proof.
  unfold validCall, track, trackMessage.
  by destruct (validateTrackingParams _ _ _ _).
Qed.

Lemma track_counter_same (m : message) (db : database) :
  validCall m = true ->
  chat_counter (track db m) !! counterKey m
  = Some match chat_counter db !! counterKey m with
         | None => {| message_count := 1; message_length := lengthOf m |}
         | Some c => {| message_count := message_count c + 1;
                        message_length := message_length c + lengthOf m |}
         end.
Proof.
  intros Hok. unfold track.
  destruct (trackMessage_validCall m db Hok) as (len & _ & _ & -> & ->).
  unfold counterKey. simpl.
  destruct (chat_counter db !! _); by rewrite lookup_insert_eq.
Qed.

Lemma track_counter_other (m : message) (db : database)
    (k : jsstring * jsstring * jsstring) :
  validCall m && bool_decide (counterKey m = k) = false ->
  chat_counter (track db m) !! k = chat_counter db !! k.
Proof.
  intros Hmiss. destruct (validCall m) eqn:Hok.
  - simpl in Hmiss. apply bool_decide_eq_false in Hmiss.
    unfold track.
    destruct (trackMessage_validCall m db Hok) as (len & _ & _ & _ & ->).
    unfold counterKey in Hmiss. simpl.
    destruct (chat_counter db !! _); by rewrite lookup_insert_ne.
  - by rewrite track_refused.
Qed.

(** A row that exists grows by the calls about it. *)
Lemma trackAll_counter_grows (k : jsstring * jsstring * jsstring)
    (ms : list message) (db : database) (c : counter) :
  chat_counter db !! k = Some c ->
  chat_counter (trackAll ms db) !! k
  = Some {| message_count :=
              message_count c + Z.of_nat (length (callsFor k ms));
            message_length :=
              message_length c + totalLength (callsFor k ms) |}.
Proof.
  revert db c. induction ms as [|m ms IH]; intros db c Hrow.
  - simpl. rewrite Hrow. destruct c. f_equal. f_equal; simpl; lia.
  - unfold callsFor. simpl.
    destruct (validCall m && bool_decide (counterKey m = k)) eqn:Hhit.
    + apply andb_true_iff in Hhit as [Hok Hkey].
      apply bool_decide_eq_true in Hkey. subst k.
      pose proof (track_counter_same m db Hok) as Hstep.
      rewrite Hrow in Hstep.
      rewrite (IH _ _ Hstep). f_equal.
      cbn [message_count message_length length totalLength foldr].
      f_equal; unfold callsFor, totalLength; lia.
    + apply (IH (track db m) c).
      by rewrite track_counter_other.
Qed.

(** Claim C1.  Start from a store with no row for a date, platform and user,
    and let any sequence of calls run.  If [N >= 1] of them are accepted calls
    about that row, the row ends with [message_count = N] and
    [message_length] the sum of their lengths. *)
Theorem trackMessage_counts (k : jsstring * jsstring * jsstring)
    (ms : list message) (db : database) :
  chat_counter db !! k = None ->
  callsFor k ms <> [] ->
  chat_counter (trackAll ms db) !! k
  = Some {| message_count := Z.of_nat (length (callsFor k ms));
            message_length := totalLength (callsFor k ms) |}.
Proof.
  revert db. induction ms as [|m ms IH]; intros db Hnone Hsome; [done|].
  unfold callsFor in *. simpl in *.
  destruct (validCall m && bool_decide (counterKey m = k)) eqn:Hhit.
  - apply andb_true_iff in Hhit as [Hok Hkey].
    apply bool_decide_eq_true in Hkey. subst k.
    pose proof (track_counter_same m db Hok) as Hstep.
    rewrite Hnone in Hstep.
    rewrite (trackAll_counter_grows _ ms _ _ Hstep). f_equal.
    cbn [message_count message_length length totalLength foldr].
    f_equal; unfold callsFor, totalLength; lia.
  - apply IH; [|done]. by rewrite track_counter_other.
Qed.

Lemma trackMessage_counts_witness :
  chat_counter (trackAll [annFirst; bob; annRenamed] D1.empty) !! annToday
  = Some {| message_count := 2; message_length := 12 |}.
Proof.
  apply (trackMessage_counts annToday [annFirst; bob; annRenamed] D1.empty).
  - reflexivity.
  - vm_compute. discriminate.
Defined.

(** *** The users table *)

Lemma track_users_kept (m : message) (db : database)
    (key : jsstring * jsstring) (name : jsstring) :
  users db !! key = Some name -> users (track db m) !! key = Some name.
Proof.
  intros Hrow. destruct (validCall m) eqn:Hok; [|by rewrite track_refused].
  unfold track.
  destruct (trackMessage_validCall m db Hok) as (len & _ & _ & _ & ->).
  simpl. destruct (users db !! (_, _)) eqn:Hthere; [done|].
  rewrite lookup_insert_ne; [done|]. congruence.
Qed.

(** Claim C5.  A row of [users] that exists keeps its [display_name] through
    any sequence of [trackMessage] calls, whatever their arguments; in
    particular it is never deleted. *)
Theorem display_name_is_kept (ms : list message) (db : database)
    (platform userId name : jsstring) :
  users db !! (platform, userId) = Some name ->
  users (trackAll ms db) !! (platform, userId) = Some name.
Proof.
  revert db. induction ms as [|m ms IH]; intros db Hrow; [done|].
  simpl. apply IH. by apply track_users_kept.
Qed.

Lemma display_name_is_kept_witness :
  users (trackAll [annRenamed; bob] (trackAll [annFirst] D1.empty))
    !! (lit "telegram", lit "42")
  = Some (lit "Ann").
Proof.
  apply (display_name_is_kept [annRenamed; bob] (trackAll [annFirst] D1.empty)).
  reflexivity.
Defined.

End TrackingFacts.

(** ** Statistics and leaderboards *)

Module StatsFacts.
Import D1 Stats Samples.

(** *** The order of a leaderboard *)

#[local] Instance ranksBefore_transitive : Transitive ranksBefore.
Proof. intros a b c. unfold ranksBefore. lia. Qed.

#[local] Instance ranksBefore_total : Total ranksBefore.
Proof. intros a b. unfold ranksBefore. lia. Qed.

Lemma orderBy_sorted (rows : list entry) :
  StronglySorted ranksBefore (orderBy rows).
Proof. apply StronglySorted_merge_sort; apply _. Qed.

Lemma limitTo_sorted (limit : Z) (rows : list entry) :
  StronglySorted ranksBefore rows ->
  StronglySorted ranksBefore (limitTo limit rows).
Proof.
  intros Hsorted. unfold limitTo.
  rewrite <- (take_drop (Z.to_nat limit) rows) in Hsorted.
  by apply StronglySorted_app_1_l in Hsorted.
Qed.

Lemma limitTo_orderBy_length (limit : Z) (rows : list entry) :
  1 <= limit ->
  Z.of_nat (length (limitTo limit (orderBy rows)))
  = Z.min limit (Z.of_nat (length rows)).
Proof.
  intros Hpos. unfold limitTo, orderBy.
  rewrite length_take, (Permutation_length (merge_sort_Permutation _ rows)).
  lia.
Qed.

(** *** The rows of the join *)

Section Join.
Variables (db : database) (platform : jsstring) (dateOk : jsstring -> bool).

Lemma joinRow_Some (row : jsstring * jsstring * jsstring * counter)
    (e : entry) :
  joinRow db platform dateOk row = Some e
  <-> exists d,
        row.1 = (d, platform, user_id e) /\ dateOk d = true
        /\ users db !! (platform, user_id e) = Some (display_name e)
        /\ messages e = message_count row.2
        /\ chars e = message_length row.2.
Proof.
  destruct row as [[[d p] u] c]. unfold joinRow. simpl.
  case_bool_decide as Hp; simpl.
  - subst p. destruct (dateOk d) eqn:Hd.
    + destruct (users db !! (platform, u)) as [name|] eqn:Hname.
      * split.
        -- intros [= <-]. by exists d.
        -- intros (d' & [= -> ->] & _ & Hn & Hm & Hc).
           destruct e; simpl in *. congruence.
      * split; [done|].
        intros (d' & [= -> ->] & _ & Hn & _). congruence.
    + split; [done|]. intros (d' & [= -> ->] & Hd' & _). congruence.
  - split; [done|]. intros (d' & [= -> -> ->] & _). done.
Qed.

Lemma elem_of_joined (e : entry) :
  e ∈ joined db platform dateOk
  <-> exists d c,
        chat_counter db !! (d, platform, user_id e) = Some c
        /\ dateOk d = true
        /\ users db !! (platform, user_id e) = Some (display_name e)
        /\ messages e = message_count c
        /\ chars e = message_length c.
Proof.
  unfold joined. rewrite list_elem_of_omap. split.
  - intros (row & Hin & Hrow). apply joinRow_Some in Hrow.
    destruct Hrow as (d & Hkey & Hd & Hname & Hm & Hc).
    destruct row as [k c]. simpl in *. subst k.
    apply elem_of_map_to_list in Hin. by exists d, c.
  - intros (d & c & Hrow & Hd & Hname & Hm & Hc).
    exists ((d, platform, user_id e), c). split.
    + by apply elem_of_map_to_list.
    + apply joinRow_Some. by exists d.
Qed.

Lemma joined_users (u : jsstring) :
  u ∈ user_id <$> joined db platform dateOk
  <-> qualifies db platform dateOk u.
Proof.
  rewrite list_elem_of_fmap. unfold qualifies. split.
  - intros (e & -> & He). apply elem_of_joined in He.
    destruct He as (d & c & Hrow & Hd & Hname & _). eauto.
  - intros [(d & c & Hrow & Hd) [name Hname]].
    exists {| user_id := u; display_name := name;
              messages := message_count c; chars := message_length c |}.
    split; [done|]. apply elem_of_joined. by exists d, c.
Qed.

(** In the rows of the join the name is a function of the user. *)
Lemma joined_name (e e' : entry) :
  e ∈ joined db platform dateOk -> e' ∈ joined db platform dateOk ->
  user_id e = user_id e' -> display_name e = display_name e'.
Proof.
  intros He He' Hu.
  apply elem_of_joined in He as (_ & _ & _ & _ & Hn & _).
  apply elem_of_joined in He' as (_ & _ & _ & _ & Hn' & _).
  congruence.
Qed.

Lemma groupBy_users (rows : list entry) :
  user_id <$> groupBy rows = fst <$> remove_dups (groupKey <$> rows).
Proof.
  unfold groupBy. rewrite <- list_fmap_compose. by apply list_fmap_ext.
Qed.

Lemma groupBy_joined_NoDup :
  NoDup (user_id <$> groupBy (joined db platform dateOk)).
Proof.
  rewrite groupBy_users.
  apply NoDup_fmap_2_strong; [|apply NoDup_remove_dups].
  intros [u n] [u' n'] Hk Hk' Hu. simpl in Hu. subst u'.
  apply elem_of_remove_dups, list_elem_of_fmap in Hk as (e & He & Hin).
  apply elem_of_remove_dups, list_elem_of_fmap in Hk' as (e' & He' & Hin').
  injection He as -> ->. injection He' as Hu ->.
  f_equal. by apply joined_name.
Qed.

Lemma groupBy_joined_users (u : jsstring) :
  u ∈ user_id <$> groupBy (joined db platform dateOk)
  <-> qualifies db platform dateOk u.
Proof.
  rewrite <- joined_users, groupBy_users, !list_elem_of_fmap. split.
  - intros ([u' n] & -> & Hk).
    apply elem_of_remove_dups, list_elem_of_fmap in Hk as (e & He & Hin).
    exists e. split; [|done]. by injection He as -> _.
  - intros (e & -> & Hin). exists (groupKey e). split; [done|].
    apply elem_of_remove_dups, list_elem_of_fmap. by exists e.
Qed.

End Join.

(** *** One row for each user in the daily query *)

Lemma joinRow_daily_key (db : database) (platform date : jsstring)
    (row : jsstring * jsstring * jsstring * counter) (e : entry) :
  joinRow db platform (onDate date) row = Some e ->
  row.1 = (date, platform, user_id e).
Proof.
  intros Hrow. apply joinRow_Some in Hrow as (d & Hkey & Hd & _).
  apply bool_decide_eq_true in Hd. by subst d.
Qed.

Lemma daily_rows_NoDup (db : database) (platform date : jsstring)
    (l : list (jsstring * jsstring * jsstring * counter)) :
  NoDup (l.*1) ->
  NoDup (user_id <$> omap (joinRow db platform (onDate date)) l).
Proof.
  induction l as [|row l IH]; simpl; [constructor|].
  rewrite NoDup_cons. intros [Hfresh Hl].
  destruct (joinRow db platform (onDate date) row) as [e|] eqn:Hrow;
    [|by apply IH].
  simpl. apply NoDup_cons. split; [|by apply IH].
  intros Hin. apply Hfresh.
  apply list_elem_of_fmap in Hin as (e' & Hu & Hin).
  apply list_elem_of_omap in Hin as (row' & Hin & Hrow').
  apply joinRow_daily_key in Hrow, Hrow'.
  apply list_elem_of_fmap. exists row'. split; [congruence|done].
Qed.

Lemma daily_joined_NoDup (db : database) (platform date : jsstring) :
  NoDup (user_id <$> joined db platform (onDate date)).
Proof. apply daily_rows_NoDup, NoDup_fst_map_to_list. Qed.

(** *** What a row says is what the store holds *)

Lemma filter_key_absent (k : jsstring * jsstring * jsstring)
    (l : list (jsstring * jsstring * jsstring * counter)) :
  k ∉ l.*1 -> List.filter (fun row => bool_decide (row.1 = k)) l = [].
Proof.
  induction l as [|row l IH]; [done|].
  rewrite fmap_cons, not_elem_of_cons. intros [Hne Hk]. simpl.
  rewrite bool_decide_eq_false_2 by done. by apply IH.
Qed.

Lemma filter_key_present (k : jsstring * jsstring * jsstring) (c : counter)
    (l : list (jsstring * jsstring * jsstring * counter)) :
  NoDup (l.*1) -> (k, c) ∈ l ->
  List.filter (fun row => bool_decide (row.1 = k)) l = [(k, c)].
Proof.
  induction l as [|[k' c'] l IH]; intros Hnodup Hin.
  - by apply elem_of_nil in Hin.
  - rewrite fmap_cons in Hnodup. apply NoDup_cons in Hnodup as [Hfresh Hl].
    simpl in *. case_bool_decide as Hk.
    + subst k'. apply elem_of_cons in Hin as [Heq|Hin].
      * injection Heq as <-. by rewrite filter_key_absent.
      * destruct Hfresh. apply list_elem_of_fmap. by exists (k, c).
    + apply elem_of_cons in Hin as [Heq|Hin]; [congruence|]. by apply IH.
Qed.

Lemma inPeriod_onDate (platform date u : jsstring)
    (row : jsstring * jsstring * jsstring * counter) :
  inPeriod platform (onDate date) u row
  = bool_decide (row.1 = (date, platform, u)).
Proof.
  destruct row as [[[d p] u'] c]. unfold inPeriod, onDate. simpl.
  repeat case_bool_decide; simpl; congruence.
Qed.

(** On one date a user has one row, and the sum is its number. *)
Lemma storedSum_onDate (column : counter -> Z) (db : database)
    (platform date u : jsstring) (c : counter) :
  chat_counter db !! (date, platform, u) = Some c ->
  storedSum column db platform (onDate date) u = column c.
Proof.
  intros Hrow. unfold storedSum.
  rewrite (filter_ext _ (fun row => bool_decide (row.1 = (date, platform, u))))
    by (intros row; apply inPeriod_onDate).
  rewrite (filter_key_present _ c).
  - simpl. lia.
  - apply NoDup_fst_map_to_list.
  - by apply elem_of_map_to_list.
Qed.

Lemma joined_describes_daily (db : database) (platform date : jsstring)
    (e : entry) :
  e ∈ joined db platform (onDate date) ->
  describes db platform (onDate date) e.
Proof.
  intros He.
  assert (Hq : qualifies db platform (onDate date) (user_id e)).
  { apply joined_users, list_elem_of_fmap. by exists e. }
  apply elem_of_joined in He as (d & c & Hrow & Hd & Hname & Hm & Hc).
  apply bool_decide_eq_true in Hd. subst d.
  split; [done|]. split; [done|].
  by rewrite !(storedSum_onDate _ _ _ _ _ c).
Qed.

(** The [SUM] of a group of the join is the sum over the user's rows of
    [chat_counter]: [f] is a column of the join, [g] the column of the table
    it copies. *)
Lemma group_sum (db : database) (platform : jsstring)
    (dateOk : jsstring -> bool) (f : entry -> Z) (g : counter -> Z)
    (u name : jsstring) (l : list (jsstring * jsstring * jsstring * counter)) :
  (forall row e, joinRow db platform dateOk row = Some e -> f e = g row.2) ->
  users db !! (platform, u) = Some name ->
  sumZ (map f (List.filter (fun e => bool_decide (groupKey e = (u, name)))
                 (omap (joinRow db platform dateOk) l)))
  = sumZ (map (fun row => g row.2)
            (List.filter (inPeriod platform dateOk u) l)).
Proof.
  intros Hfg Hname. induction l as [|row l IH]; [done|].
  cbn [omap list_omap List.filter].
  destruct (joinRow db platform dateOk row) as [e|] eqn:Hrow.
  - pose proof (Hfg _ _ Hrow) as Hcol.
    apply joinRow_Some in Hrow as (d & Hkey & Hd & Hn & _).
    destruct row as [[[d' p] u'] c]. simpl in Hkey, Hcol.
    injection Hkey as -> -> ->.
    cbn [List.filter]. unfold inPeriod at 1, groupKey at 1.
    rewrite Hd, (bool_decide_eq_true_2 (platform = platform)) by done.
    destruct (decide (user_id e = u)) as [Hu|Hu].
    + rewrite (bool_decide_eq_true_2 (user_id e = u)) by done.
      rewrite bool_decide_eq_true_2 by (rewrite Hu in Hn; congruence).
      simpl. rewrite Hcol. f_equal. apply IH.
    + rewrite (bool_decide_eq_false_2 (user_id e = u)) by done.
      rewrite bool_decide_eq_false_2 by congruence.
      apply IH.
  - destruct row as [[[d p] u'] c]. unfold inPeriod at 1.
    unfold joinRow in Hrow.
    destruct (bool_decide (p = platform)) eqn:Hp; simpl in *; [|apply IH].
    destruct (dateOk d); simpl in *; [|by rewrite andb_false_r; apply IH].
    apply bool_decide_eq_true in Hp. subst p.
    destruct (users db !! (platform, u')) eqn:Hu'; [done|].
    rewrite bool_decide_eq_false_2; [apply IH|congruence].
Qed.

Lemma grouped_describes (db : database) (platform : jsstring)
    (dateOk : jsstring -> bool) (e : entry) :
  e ∈ groupBy (joined db platform dateOk) ->
  describes db platform dateOk e.
Proof.
  intros He.
  assert (Hq : qualifies db platform dateOk (user_id e)).
  { apply groupBy_joined_users, list_elem_of_fmap. by exists e. }
  unfold groupBy in He.
  apply list_elem_of_fmap in He as ([u name] & -> & Hk).
  apply elem_of_remove_dups, list_elem_of_fmap in Hk as (e0 & Hk & He0).
  injection Hk as -> ->.
  apply elem_of_joined in He0 as (d & c & _ & _ & Hname & _).
  split; [done|]. split; [done|]. simpl.
  unfold storedSum, joined. split.
  - apply group_sum; [|done].
    intros row e Hrow. by apply joinRow_Some in Hrow as (? & _ & _ & _ & ? & _).
  - apply group_sum; [|done].
    intros row e Hrow. by apply joinRow_Some in Hrow as (? & _ & _ & _ & _ & ?).
Qed.

(** *** The queries *)

(** [ORDER BY] and [LIMIT] over rows, one for each qualifying user, that say
    what the store holds. *)
Lemma limitTo_orderBy_ranked (limit : Z) (db : database) (platform : jsstring)
    (dateOk : jsstring -> bool) (candidates : list entry) :
  1 <= limit ->
  NoDup (user_id <$> candidates) ->
  (forall u, u ∈ user_id <$> candidates <-> qualifies db platform dateOk u) ->
  (forall e, e ∈ candidates -> describes db platform dateOk e) ->
  ranked limit db platform dateOk (limitTo limit (orderBy candidates)).
Proof.
  intros Hpos Hnodup Husers Hdescribes.
  pose proof (merge_sort_Permutation ranksBefore candidates) as Hperm.
  pose proof (orderBy_sorted candidates) as Hsorted.
  unfold limitTo, orderBy in *.
  set (sorted := merge_sort ranksBefore candidates) in *.
  set (n := Z.to_nat limit).
  split; [|split; [|split; [|split]]].
  - by apply (limitTo_sorted limit).
  - rewrite fmap_take. apply (sublist_NoDup _ (user_id <$> sorted)).
    + by rewrite Hperm.
    + apply sublist_take.
  - intros e He. apply Hdescribes. rewrite <- Hperm.
    by apply (subseteq_take n).
  - intros u e Hu Hout He.
    apply Husers, list_elem_of_fmap in Hu as (eu & -> & Heu).
    rewrite <- Hperm, <- (take_drop n sorted) in Heu.
    apply elem_of_app in Heu as [Heu|Heu].
    { destruct Hout. apply list_elem_of_fmap. by exists eu. }
    rewrite <- (take_drop n sorted) in Hsorted.
    pose proof (StronglySorted_app_1_elem_of _ _ _ _ _ Hsorted He Heu) as Hrank.
    assert (Hin : eu ∈ candidates).
    { rewrite <- Hperm. by apply (subseteq_drop n). }
    destruct (Hdescribes eu Hin) as (_ & _ & <- & <-).
    unfold ranksBefore in Hrank. lia.
  - exists (user_id <$> candidates). split; [done|]. split; [done|].
    rewrite length_take, length_fmap, (Permutation_length Hperm). lia.
Qed.

Lemma dailyQuery_ranked (db : database) (platform date : jsstring)
    (limit : Z) :
  1 <= limit ->
  ranked limit db platform (onDate date) (dailyQuery date platform limit db).
Proof.
  intros Hpos. unfold dailyQuery. apply limitTo_orderBy_ranked; [done|..].
  - apply daily_joined_NoDup.
  - apply joined_users.
  - apply joined_describes_daily.
Qed.

Lemma summedQuery_ranked (db : database) (platform : jsstring)
    (dateOk : jsstring -> bool) (limit : Z) :
  1 <= limit ->
  ranked limit db platform dateOk (summedQuery dateOk platform limit db).
Proof.
  intros Hpos. unfold summedQuery. apply limitTo_orderBy_ranked; [done|..].
  - apply groupBy_joined_NoDup.
  - apply groupBy_joined_users.
  - apply grouped_describes.
Qed.

Lemma leaderboard_valid (operation : string) (platform : jsstring)
    (limit : Z) (query : jsstring -> Z -> database -> list entry)
    (db : database) :
  invalidPlatform platform = false -> 1 <= limit <= 1000 ->
  leaderboard operation platform (Int limit) query db
  = (Returns (query (toLowerCase platform) limit db), recorded operation db).
Proof.
  intros Hplatform Hlimit. unfold leaderboard, validateDatabaseParams.
  rewrite Hplatform. by rewrite bool_decide_eq_false_2 by lia.
Qed.

(** Claim C3.  For every store, a supported platform and a limit in
    [1, 1000], each of the four leaderboards returns rows ordered by message
    count descending, then by message length descending, and as many rows as
    the smaller of the limit and the number of qualifying users.  The rows
    are those of the stored data: one row at most for a user, each with the
    name of [users] and the sums of [message_count] and [message_length] over
    the user's rows of the period, and no qualifying user left out ranks
    above a row returned. *)
Theorem leaderboards_ranked (clk : clock) (platform : jsstring)
    (date : option jsstring) (limit : Z) (db : database) :
  invalidPlatform platform = false -> 1 <= limit <= 1000 ->
  (exists rows,
     (getDailyLeaderboard clk platform date (Int limit) db).1 = Returns rows
     /\ ranked limit db (toLowerCase platform)
          (onDate (targetDate clk date)) rows)
  /\ (exists rows,
        (getWeeklyLeaderboard clk platform (Int limit) db).1 = Returns rows
        /\ ranked limit db (toLowerCase platform) (since (weekAgo clk)) rows)
  /\ (exists rows,
        (getMonthlyLeaderboard clk platform (Int limit) db).1 = Returns rows
        /\ ranked limit db (toLowerCase platform)
             (since (startOfMonth clk)) rows)
  /\ (exists rows,
        (getAllTimeLeaderboard platform (Int limit) db).1 = Returns rows
        /\ ranked limit db (toLowerCase platform) always rows).
Proof.
  intros Hplatform Hlimit.
  unfold getDailyLeaderboard, getWeeklyLeaderboard, getMonthlyLeaderboard,
    getAllTimeLeaderboard.
  rewrite !leaderboard_valid by done. simpl.
  repeat split; eexists; (split; [reflexivity|]);
    first [apply dailyQuery_ranked | apply summedQuery_ranked]; lia.
Qed.

Lemma leaderboards_ranked_witness :
  exists rows,
    (getAllTimeLeaderboard (lit "telegram") (Int 1) threeMessages).1
    = Returns rows
    /\ ranked 1 threeMessages (toLowerCase (lit "telegram")) always rows.
Proof.
  apply (leaderboards_ranked january (lit "telegram") None 1 threeMessages).
  - reflexivity.
  - lia.
Defined.

(** On the store of the three sample messages the first row of the all-time
    leaderboard is Ann's, with her two messages and twelve characters, and a
    row about somebody the store does not know is not a leaderboard. *)
Lemma allTime_first_of_three :
  (getAllTimeLeaderboard (lit "telegram") (Int 1) threeMessages).1
  = Returns [{| user_id := lit "42"; display_name := lit "Ann";
                messages := 2; chars := 12 |}].
Proof. vm_compute. reflexivity. Qed.

Lemma stranger_is_not_ranked :
  ~ ranked 1 threeMessages (lit "telegram") always
      [{| user_id := lit "nobody"; display_name := lit "Nobody";
          messages := 0; chars := 0 |}].
Proof.
  intros (_ & _ & Hdescribes & _).
  destruct (Hdescribes _ (list_elem_of_here _ _)) as (_ & Hname & _).
  vm_compute in Hname. discriminate.
Qed.

(** *** Rejection before any statement *)

Lemma invalidPlatform_unsupported (platform : jsstring) :
  toLowerCase platform ∉ supportedPlatforms -> invalidPlatform platform = true.
Proof.
  intros Hout. unfold invalidPlatform, includes.
  rewrite bool_decide_eq_false_2 by done. apply orb_true_r.
Qed.

Lemma validateDatabaseParams_rejects (platform : jsstring) (limit : number) :
  toLowerCase platform ∉ supportedPlatforms
  \/ (forall z, limit = Int z -> z < 1 \/ 1000 < z) ->
  exists message, validateDatabaseParams platform limit = Some message.
Proof.
  unfold validateDatabaseParams. intros [Hplatform|Hlimit].
  - rewrite invalidPlatform_unsupported by done. eauto.
  - destruct (invalidPlatform platform); [eauto|].
    destruct limit as [z| |]; [|eauto..].
    rewrite bool_decide_eq_true_2 by (by apply Hlimit). eauto.
Qed.

Lemma leaderboard_rejects (operation : string) (platform : jsstring)
    (limit : number) (query : jsstring -> Z -> database -> list entry)
    (db : database) (message : string) :
  validateDatabaseParams platform limit = Some message ->
  leaderboard operation platform limit query db = (Throws message, db).
Proof. intros Hbad. unfold leaderboard. by rewrite Hbad. Qed.

(** Claim C8.  With a platform that is not ['telegram'] or ['discord'] up to
    case, or a limit that is not an integer in [1, 1000], each leaderboard
    function throws and the store is as before, no statement having been
    prepared or run; with such a platform the same holds of [getUserStats]
    and [getPlatformStats], which take no limit. *)
Theorem invalid_parameters_rejected (clk : clock) (platform userId : jsstring)
    (date : option jsstring) (limit : number) (db : database) :
  toLowerCase platform ∉ supportedPlatforms
  \/ (forall z, limit = Int z -> z < 1 \/ 1000 < z) ->
  (exists message,
     getDailyLeaderboard clk platform date limit db = (Throws message, db))
  /\ (exists message,
        getWeeklyLeaderboard clk platform limit db = (Throws message, db))
  /\ (exists message,
        getMonthlyLeaderboard clk platform limit db = (Throws message, db))
  /\ (exists message,
        getAllTimeLeaderboard platform limit db = (Throws message, db))
  /\ (toLowerCase platform ∉ supportedPlatforms ->
      (exists message,
         getUserStats clk platform userId db = (Throws message, db))
      /\ (exists message,
            getPlatformStats clk platform db = (Throws message, db))).
Proof.
  intros Hbad.
  destruct (validateDatabaseParams_rejects platform limit Hbad)
    as [message Hrejected].
  unfold getDailyLeaderboard, getWeeklyLeaderboard, getMonthlyLeaderboard,
    getAllTimeLeaderboard.
  rewrite !(leaderboard_rejects _ _ _ _ _ _ Hrejected).
  repeat split; eauto.
  - unfold getUserStats. rewrite invalidPlatform_unsupported by done. eauto.
  - unfold getPlatformStats, validateDatabaseParams.
    rewrite invalidPlatform_unsupported by done. eauto.
Qed.

Lemma invalid_parameters_rejected_witness :
  (exists message,
     getAllTimeLeaderboard (lit "xyz") (Int 10) threeMessages
     = (Throws message, threeMessages))
  /\ (exists message,
        getDailyLeaderboard january (lit "telegram") None (Int 0) threeMessages
        = (Throws message, threeMessages))
  /\ (exists message,
        getPlatformStats january (lit "xyz") threeMessages
        = (Throws message, threeMessages)).
Proof.
  assert (Hxyz : toLowerCase (lit "xyz") ∉ supportedPlatforms).
  { intros Hin.
    repeat (apply elem_of_cons in Hin as [Hin|Hin]; [discriminate|]).
    by apply elem_of_nil in Hin. }
  repeat split.
  - apply (invalid_parameters_rejected january (lit "xyz") (lit "42") None
             (Int 10) threeMessages).
    by left.
  - apply (invalid_parameters_rejected january (lit "telegram") (lit "42")
             None (Int 0) threeMessages).
    right. intros z [= <-]. lia.
  - apply (invalid_parameters_rejected january (lit "xyz") (lit "42") None
             (Int 10) threeMessages); [by left | done].
Defined.

End StatsFacts.

(** ** The leaderboard route *)

Module ApiFacts.
Import D1 Stats Api Samples.

(** The limit the route passes on: 10 when the query has none, never more
    than 100. *)
Lemma route_limit_default :
  atMost100 (parseInt (orElse None (lit "10"))) = Int 10
  /\ atMost100 (parseInt (orElse (Some []) (lit "10"))) = Int 10
  /\ atMost100 (parseInt (orElse (Some (lit "25")) (lit "10"))) = Int 25
  /\ atMost100 (parseInt (orElse (Some (lit "500")) (lit "10"))) = Int 100.
Proof. repeat split. Qed.

Lemma atMost100_capped (n : number) (z : Z) :
  atMost100 n = Int z -> z <= 100.
Proof. destruct n; simpl; intros [= <-]. lia. Qed.

(** With a supported platform and period, a limit below 1 or not a number
    reaches [validateDatabaseParams], whose error the route reports as an
    internal one. *)
Lemma route_rejects_limit (clk : clock) (platform : jsstring)
    (period limitQuery : option jsstring) (db : database) :
  platform ∈ supportedPlatforms ->
  orElse period (lit "all") ∈ periods ->
  (forall z, atMost100 (parseInt (orElse limitQuery (lit "10"))) = Int z ->
             z < 1) ->
  leaderboardRoute clk platform period limitQuery db
  = (Failure "INTERNAL_ERROR" 500, db).
Proof.
  intros Hplatform Hperiod Hlimit. unfold leaderboardRoute, includes.
  rewrite !bool_decide_eq_true_2 by done. simpl negb. cbv iota.
  assert (Hthrows : exists message,
    validateDatabaseParams platform
      (atMost100 (parseInt (orElse limitQuery (lit "10")))) = Some message).
  { unfold validateDatabaseParams.
    destruct (invalidPlatform platform); [eauto|].
    destruct (atMost100 _) as [z| |]; [|eauto..].
    rewrite bool_decide_eq_true_2; [eauto|].
    left. by apply Hlimit. }
  destruct Hthrows as [message Hthrows].
  unfold getDailyLeaderboard, getWeeklyLeaderboard, getMonthlyLeaderboard,
    getAllTimeLeaderboard, leaderboard.
  rewrite Hthrows.
  by repeat case_bool_decide.
Qed.

(** Claim C4 at its failing inputs: with [limit=0], [limit=-3] or [limit=abc]
    the route answers 500 with the code [INTERNAL_ERROR], not 400; no
    statement is run. *)
Theorem invalid_limit_is_internal_error (clk : clock) (db : database) :
  leaderboardRoute clk (lit "telegram") None (Some (lit "0")) db
  = (Failure "INTERNAL_ERROR" 500, db)
  /\ leaderboardRoute clk (lit "discord") (Some (lit "weekly"))
       (Some (lit "-3")) db
     = (Failure "INTERNAL_ERROR" 500, db)
  /\ leaderboardRoute clk (lit "telegram") (Some (lit "daily"))
       (Some (lit "abc")) db
     = (Failure "INTERNAL_ERROR" 500, db).
Proof.
  repeat split; apply route_rejects_limit;
    try (apply bool_decide_unpack; vm_compute; exact I);
    vm_compute; intros z [= <-]; done.
Qed.

(** The sibling checks of the same handler do answer 400. *)
Lemma invalid_platform_is_400 (clk : clock) (db : database) :
  leaderboardRoute clk (lit "xyz") None (Some (lit "0")) db
  = (Failure "INVALID_PLATFORM" 400, db)
  /\ leaderboardRoute clk (lit "telegram") (Some (lit "yearly")) None db
     = (Failure "INVALID_PERIOD" 400, db).
Proof. split; reflexivity. Qed.

End ApiFacts.

(** ** More on the rate limiter *)

Module RateLimiterMore.
Import RateLimiter RateLimiterFacts Gate Samples.

Section Limiter.
Variable cfg : config.

(** A key is refused exactly when it has no request left. *)
Theorem limited_iff_none_remaining (key : jsstring) (now : Z) (s : requests) :
  (isRateLimited cfg key now s).1 = true
  <-> getRemainingRequests cfg key now s = 0.
Proof.
  unfold isRateLimited, getRemainingRequests.
  case_bool_decide; simpl; split; intros; try done; lia.
Qed.

Lemma validRequests_idemp (now : Z) (l : list Z) :
  validRequests cfg now (validRequests cfg now l) = validRequests cfg now l.
Proof. by apply validRequests_later. Qed.

(** With a window that is not empty, an accepted call uses up one request. *)
Theorem accepted_call_uses_one (key : jsstring) (now : Z) (s : requests) :
  0 < windowMs cfg ->
  (isRateLimited cfg key now s).1 = false ->
  getRemainingRequests cfg key now (isRateLimited cfg key now s).2
  = getRemainingRequests cfg key now s - 1.
Proof.
  intros Hwindow. unfold isRateLimited, getRemainingRequests.
  case_bool_decide as Hfull; simpl; [done|]. intros _.
  rewrite userRequests_insert_eq, validRequests_app, validRequests_idemp.
  unfold validRequests at 2. rewrite filter_cons, filter_nil.
  destruct (decide (now - now < windowMs cfg)); [|lia].
  rewrite length_app. simpl. lia.
Qed.

(** A call for one key leaves the list of every other key, and so what a
    later call for it answers, as it was. *)
Theorem other_keys_untouched (key other : jsstring) (now t : Z)
    (s : requests) :
  other <> key ->
  (isRateLimited cfg key now s).2 !! other = s !! other
  /\ (isRateLimited cfg other t (isRateLimited cfg key now s).2).1
     = (isRateLimited cfg other t s).1
  /\ getRemainingRequests cfg other t (isRateLimited cfg key now s).2
     = getRemainingRequests cfg other t s.
Proof.
  intros Hne.
  assert (Hsame : (isRateLimited cfg key now s).2 !! other = s !! other).
  { unfold isRateLimited. case_bool_decide; simpl; [done|].
    by rewrite lookup_insert_ne. }
  split; [done|].
  unfold isRateLimited at 1 3, getRemainingRequests, userRequests.
  rewrite Hsame. split; [|done]. by case_bool_decide.
Qed.

(** *** What the map holds *)

Lemma validRequests_Forall (P : Z -> Prop) (now : Z) (l : list Z) :
  Forall P l -> Forall P (validRequests cfg now l).
Proof.
  intros Hl. unfold validRequests. rewrite Forall_forall in *.
  intros x Hx. apply list_elem_of_filter in Hx as [_ Hx]. by apply Hl.
Qed.

Lemma validRequests_length (now : Z) (l : list Z) :
  (length (validRequests cfg now l) <= length l)%nat.
Proof. apply length_filter. Qed.

Lemma tidy_userRequests (bound : Z) (s : requests) (key : jsstring) :
  tidy cfg bound s ->
  Z.of_nat (length (userRequests key s)) <= Z.max 0 (maxRequests cfg)
  /\ Forall (fun t => t <= bound) (userRequests key s).
Proof.
  intros Htidy. unfold userRequests.
  destruct (s !! key) as [l|] eqn:Hl; simpl; [|split; [lia|constructor]].
  destruct (Htidy key l Hl) as (_ & Hlen & Hle). split; [lia|done].
Qed.

Lemma tidy_step (bound : Z) (s : requests) (e : Z * call) :
  e.1 <= bound -> tidy cfg bound s -> tidy cfg bound (step cfg s e).
Proof.
  intros He Htidy. destruct e as [t c]. simpl in He.
  unfold step; simpl. destruct c as [key|key|]; [| done |].
  - unfold isRateLimited. case_bool_decide as Hfull; simpl; [done|].
    intros key' l. destruct (decide (key = key')) as [<-|Hne].
    + rewrite lookup_insert_eq. intros [= <-].
      split; [by destruct (validRequests cfg t _)|].
      split; [rewrite length_app; simpl; lia|].
      apply Forall_app. split; [|by repeat constructor].
      apply validRequests_Forall.
      by apply (tidy_userRequests bound s key).
    + rewrite lookup_insert_ne by done. apply Htidy.
  - intros key l. unfold cleanup. rewrite lookup_omap.
    destruct (s !! key) as [l0|] eqn:Hl0; simpl; [|done].
    destruct (Htidy key l0 Hl0) as (_ & Hlen & Hle).
    pose proof (validRequests_length t l0) as Hshort.
    pose proof (validRequests_Forall _ t l0 Hle) as Hle'.
    destruct (validRequests cfg t l0) as [|x v] eqn:Hv; [done|].
    intros [= <-]. split; [done|]. split; [lia|done].
Qed.

Lemma tidy_run (bound : Z) (history : list (Z * call)) (s : requests) :
  Forall (fun e => e.1 <= bound) history ->
  tidy cfg bound s -> tidy cfg bound (run cfg history s).
Proof.
  intros Hle. revert s. induction Hle as [|e history He _ IH]; intros s Hs.
  - done.
  - simpl. apply IH. by apply tidy_step.
Qed.

Lemma tidy_empty (bound : Z) : tidy cfg bound ∅.
Proof. intros key l Hl. by rewrite lookup_empty in Hl. Qed.

(** Whatever calls are made on a fresh limiter, it never keeps an empty list,
    nor more than [maxRequests] timestamps for a key. *)
Theorem stored_lists_bounded (history : list (Z * call)) (key : jsstring)
    (l : list Z) :
  run cfg history ∅ !! key = Some l ->
  l <> [] /\ Z.of_nat (length l) <= maxRequests cfg.
Proof.
  intros Hl.
  assert (Hbound : exists bound, Forall (fun e => e.1 <= bound) history).
  { clear. induction history as [|e history [b Hb]].
    - by exists 0.
    - exists (Z.max b e.1). constructor; [simpl; lia|].
      eapply Forall_impl; [exact Hb|]. simpl. intros; lia. }
  destruct Hbound as [bound Hbound].
  destruct (tidy_run bound history ∅ Hbound (tidy_empty bound) key l Hl)
    as (Hne & Hlen & _).
  done.
Qed.

(** *** The time announced to a refused caller *)

Lemma minimum_elem (x : Z) (l : list Z) : minimum x l ∈ x :: l.
Proof.
  unfold minimum. induction l as [|y l IH]; simpl; [left|].
  destruct (Z.min_spec y (foldr Z.min x l)) as [[_ ->]|[_ ->]].
  - right. left.
  - apply elem_of_cons in IH as [->|IH]; [left | right; by right].
Qed.

Lemma validRequests_all (now : Z) (l : list Z) :
  length (validRequests cfg now l) = length l ->
  Forall (fun t => now - t < windowMs cfg) l.
Proof.
  unfold validRequests. induction l as [|x l IH]; [constructor|].
  rewrite filter_cons.
  destruct (decide (now - x < windowMs cfg)) as [Hin|Hout]; simpl.
  - intros [= Hlen]. constructor; [done | by apply IH].
  - intros Hlen. pose proof (length_filter
      (fun timestamp => now - timestamp < windowMs cfg) l). lia.
Qed.

Lemma ceilSeconds_bounds (x w : Z) :
  0 < x <= w -> 1 <= ceilSeconds x <= ceilSeconds w.
Proof.
  unfold ceilSeconds. intros Hx.
  assert ((- x) / 1000 < 0) by (apply Z.div_lt_upper_bound; lia).
  assert ((- w) / 1000 <= (- x) / 1000) by (apply Z.div_le_mono; lia).
  lia.
Qed.

Lemma gate_wait (history : list (Z * call)) (key : jsstring)
    (now : Z) (seconds : Z) :
  1 <= maxRequests cfg ->
  Forall (fun e => e.1 <= now) history ->
  (gate cfg key now now (run cfg history ∅)).1 = Some seconds ->
  1 <= seconds <= ceilSeconds (windowMs cfg).
Proof.
  intros Hpos Hle. unfold gate, isRateLimited.
  pose proof (tidy_run now history ∅ Hle (tidy_empty now)) as Htidy.
  set (s := run cfg history ∅) in *.
  case_bool_decide as Hfull; simpl; [|done]. intros [= <-].
  unfold getResetTime, userRequests in *.
  destruct (s !! key) as [l|] eqn:Hl; simpl in *; [|lia].
  destruct (Htidy key l Hl) as (Hne & Hlen & Hold).
  pose proof (validRequests_length now l) as Hshort.
  assert (Hall : Forall (fun t => now - t < windowMs cfg) l).
  { apply validRequests_all. lia. }
  destruct l as [|x l]; [done|].
  pose proof (minimum_elem x l) as Hmin.
  rewrite Forall_forall in Hall, Hold.
  specialize (Hall _ Hmin). specialize (Hold _ Hmin). simpl in Hold.
  rewrite Z.max_r by lia.
  apply ceilSeconds_bounds. lia.
Qed.

(** On a limiter that started fresh and allows at least one request, a caller
    refused at the reading [now] is told to wait at least one second and at
    most the length of the window, when [getResetTime] reads the same clock
    value. *)
Theorem refused_caller_waits (history : list (Z * call)) (key : jsstring)
    (now : Z) (seconds : Z) :
  1 <= maxRequests cfg ->
  Forall (fun e => e.1 <= now) history ->
  (gate cfg key now now (run cfg history ∅)).1 = Some seconds ->
  1 <= seconds <= ceilSeconds (windowMs cfg).
Proof. apply gate_wait. Qed.

Lemma refused_iff (history : list (Z * call)) (key : jsstring) (now : Z) :
  Forall (fun e => e.1 <= now) history ->
  (isRateLimited cfg key now (run cfg history ∅)).1 = true
  <-> maxRequests cfg
      <= Z.of_nat (length (validRequests cfg now
                             (accepted cfg key history ∅))).
Proof.
  intros Hle. unfold isRateLimited.
  rewrite (run_window cfg key now history ∅ Hle).
  assert (Hfresh : userRequests key (∅ : requests) = []).
  { unfold userRequests. by rewrite (lookup_empty (M := gmap jsstring)). }
  rewrite Hfresh. simpl.
  case_bool_decide; simpl; split; intros; done.
Qed.

(** On a limiter that started fresh, a call is refused exactly when
    [maxRequests] calls for the same key were accepted less than [windowMs]
    before it: calls for other keys, refused calls and [cleanup()] never make
    a caller wait. *)
Theorem refused_only_when_spent (history : list (Z * call)) (key : jsstring)
    (now : Z) :
  Forall (fun e => e.1 <= now) history ->
  (isRateLimited cfg key now (run cfg history ∅)).1 = true
  <-> maxRequests cfg
      <= Z.of_nat (length (validRequests cfg now
                             (accepted cfg key history ∅))).
Proof. apply refused_iff. Qed.

(** *** [cleanup] *)

(** After [cleanup()] every key left has a list that is not empty and lies
    within the window, and a second [cleanup()] at the same reading changes
    nothing. *)
Theorem cleanup_result (t : Z) (s : requests) :
  (forall key l, cleanup cfg t s !! key = Some l ->
     l <> [] /\ Forall (fun timestamp => t - timestamp < windowMs cfg) l)
  /\ cleanup cfg t (cleanup cfg t s) = cleanup cfg t s.
Proof.
  split.
  - intros key l. unfold cleanup. rewrite lookup_omap.
    destruct (s !! key) as [l0|]; simpl; [|done].
    assert (Hin : Forall (fun timestamp => t - timestamp < windowMs cfg)
                    (validRequests cfg t l0)).
    { unfold validRequests. apply Forall_forall. intros x Hx.
      by apply list_elem_of_filter in Hx as [Hx _]. }
    destruct (validRequests cfg t l0) as [|x v]; [done|].
    by intros [= <-].
  - apply map_eq. intros key. unfold cleanup. rewrite !lookup_omap.
    destruct (s !! key) as [l0|]; simpl; [|done].
    pose proof (validRequests_idemp t l0) as Hidem.
    destruct (validRequests cfg t l0) as [|x v]; simpl; [done|].
    by rewrite Hidem.
Qed.

End Limiter.

(** The middleware of [/api/*], on a limiter that started fresh: it answers
    429 exactly when 60 requests of the same client address were let through
    in the last 60000 ms, it then announces between 1 and 60 seconds, and it
    records nothing. *)
Theorem api_middleware_refusal (history : list (Z * call))
    (cfConnectingIp xForwardedFor : option jsstring) (now : Z) :
  Forall (fun e => e.1 <= now) history ->
  (is_Some (rateLimitMiddleware cfConnectingIp xForwardedFor now now
              (run apiRateLimiter history ∅)).1
   <-> 60 <= Z.of_nat (length (validRequests apiRateLimiter now
                                 (accepted apiRateLimiter
                                    (clientIp cfConnectingIp xForwardedFor)
                                    history ∅))))
  /\ (forall seconds,
        (rateLimitMiddleware cfConnectingIp xForwardedFor now now
           (run apiRateLimiter history ∅)).1 = Some seconds ->
        1 <= seconds <= 60
        /\ (rateLimitMiddleware cfConnectingIp xForwardedFor now now
              (run apiRateLimiter history ∅)).2
           = run apiRateLimiter history ∅).
Proof.
  intros Hle. split.
  - rewrite <- (refused_iff apiRateLimiter history
                  (clientIp cfConnectingIp xForwardedFor) now Hle).
    unfold rateLimitMiddleware, gate.
    destruct (isRateLimited apiRateLimiter _ now _) as [[|] s'] eqn:Hcall;
      simpl; split; try done; intros [? ?]; done.
  - intros seconds Hrefused. split.
    + apply (gate_wait apiRateLimiter history
               (clientIp cfConnectingIp xForwardedFor) now seconds);
        [done|done|].
      exact Hrefused.
    + unfold rateLimitMiddleware, gate, isRateLimited in *.
      case_bool_decide; simpl in *; done.
Qed.

Lemma limited_iff_none_remaining_witness :
  getRemainingRequests twoPerSecond (lit "ip") 20
    (run twoPerSecond twoCalls ∅) = 0.
Proof.
  apply (proj1 (limited_iff_none_remaining twoPerSecond (lit "ip") 20
                  (run twoPerSecond twoCalls ∅))).
  reflexivity.
Defined.

Lemma accepted_call_uses_one_witness :
  getRemainingRequests twoPerSecond (lit "ip") 20
    (isRateLimited twoPerSecond (lit "ip") 20 ∅).2
  = getRemainingRequests twoPerSecond (lit "ip") 20 ∅ - 1.
Proof.
  apply (accepted_call_uses_one twoPerSecond (lit "ip") 20 ∅).
  - simpl. lia.
  - reflexivity.
Defined.

Lemma other_keys_untouched_witness :
  (isRateLimited twoPerSecond (lit "ip") 20 ∅).2 !! lit "other"
  = (∅ : requests) !! lit "other".
Proof.
  apply (other_keys_untouched twoPerSecond (lit "ip") (lit "other") 20 20 ∅).
  discriminate.
Defined.

Lemma stored_lists_bounded_witness :
  [0; 10] <> []
  /\ Z.of_nat (length [0; 10]) <= maxRequests twoPerSecond.
Proof.
  apply (stored_lists_bounded twoPerSecond twoCalls (lit "ip") [0; 10]).
  reflexivity.
Defined.

Lemma refused_caller_waits_witness : 1 <= 1 <= ceilSeconds 1000.
Proof.
  apply (refused_caller_waits twoPerSecond twoCalls (lit "ip") 20 1).
  - simpl. lia.
  - repeat constructor; simpl; lia.
  - reflexivity.
Defined.

Lemma refused_only_when_spent_witness :
  (isRateLimited twoPerSecond (lit "ip") 20 (run twoPerSecond twoCalls ∅)).1
  = true.
Proof.
  apply (refused_only_when_spent twoPerSecond twoCalls (lit "ip") 20).
  - repeat constructor; simpl; lia.
  - vm_compute. discriminate.
Defined.

Lemma api_middleware_refusal_witness :
  is_Some (rateLimitMiddleware (Some (lit "10.0.0.1")) None 100 100
             (run apiRateLimiter sixtyRequests ∅)).1
  /\ 1 <= 60 <= 60
  /\ (rateLimitMiddleware (Some (lit "10.0.0.1")) None 100 100
        (run apiRateLimiter sixtyRequests ∅)).2
     = run apiRateLimiter sixtyRequests ∅.
Proof.
  assert (Hle : Forall (fun e : Z * call => e.1 <= 100) sixtyRequests).
  { apply Forall_forall. intros e He.
    apply list_elem_of_fmap in He as (i & -> & Hi).
    apply elem_of_seq in Hi. simpl. lia. }
  split.
  - apply (proj1 (api_middleware_refusal sixtyRequests
                    (Some (lit "10.0.0.1")) None 100 Hle)).
    vm_compute. discriminate.
  - apply (proj2 (api_middleware_refusal sixtyRequests
                    (Some (lit "10.0.0.1")) None 100 Hle) 60).
    vm_compute. reflexivity.
Defined.

Lemma cleanup_result_witness :
  [10] <> [] /\ Forall (fun timestamp => 1005 - timestamp < 1000) [10].
Proof.
  apply (proj1 (cleanup_result twoPerSecond 1005 (run twoPerSecond twoCalls ∅))
           (lit "ip") [10]).
  reflexivity.
Defined.

End RateLimiterMore.

(** ** More on the sanitizer *)

Module SanitizerMore.
Import Security.

Lemma removeAll_sublist (m : jsstring -> option nat) (skip : nat)
    (s : jsstring) :
  sublist (removeAll m skip s) s.
Proof.
  revert skip. induction s as [|c s IH]; intros skip; simpl; [done|].
  destruct skip as [|n]; [|by apply sublist_cons].
  destruct (m (c :: s)) as [[|n]|];
    first [by apply sublist_skip | by apply sublist_cons].
Qed.

Lemma filter_sublist (f : N -> bool) (s : jsstring) :
  sublist (List.filter f s) s.
Proof.
  induction s as [|c s IH]; simpl; [done|].
  destruct (f c); [by apply sublist_skip | by apply sublist_cons].
Qed.

Lemma trimStart_sublist (s : jsstring) : sublist (trimStart s) s.
Proof.
  induction s as [|c s IH]; simpl; [done|].
  destruct (isTrimmable c); [by apply sublist_cons | done].
Qed.

Lemma sublist_rev (a b : jsstring) : sublist a b -> sublist (rev a) (rev b).
Proof.
  induction 1 as [|x l1 l2 _ IH|x l1 l2 _ IH]; simpl.
  - done.
  - by apply sublist_app.
  - by apply sublist_inserts_r.
Qed.

Lemma trim_sublist (s : jsstring) : sublist (trim s) s.
Proof.
  unfold trim, trimEnd.
  transitivity (trimStart s); [|apply trimStart_sublist].
  rewrite <- (rev_involutive (trimStart s)) at 2.
  apply sublist_rev, trimStart_sublist.
Qed.

(** [sanitizeInput] only deletes: what it returns is the input with some code
    units left out, in the same order, so it is never longer than the
    input. *)
Theorem sanitizeInput_only_deletes (s r : jsstring) (maxLength : Z) :
  sanitizeInput (JsString s) maxLength = Some r ->
  sublist r s /\ (length r <= length s)%nat.
Proof.
  intros Hr.
  assert (Hsub : sublist r s).
  { destruct s as [|c s]; [done|].
    rewrite SecurityFacts.sanitizeInput_sanitized in Hr.
    injection Hr as <-. unfold sanitized, stripped.
    etransitivity; [apply sublist_take|].
    etransitivity; [apply trim_sublist|].
    etransitivity; [apply removeAll_sublist|].
    etransitivity; [apply removeAll_sublist|].
    apply filter_sublist. }
  split; [done | by apply sublist_length].
Qed.

Lemma sanitizeInput_only_deletes_witness :
  sublist (lit "bhi/b") (lit " <b>hi</b> ")
  /\ (length (lit "bhi/b") <= length (lit " <b>hi</b> "))%nat.
Proof.
  apply (sanitizeInput_only_deletes (lit " <b>hi</b> ") (lit "bhi/b") 1000).
  reflexivity.
Defined.

(** *** Text that passes unchanged *)

Lemma eq_ci_ascii (p c : N) :
  isLowerAscii p = false -> isUpperAscii p = false ->
  eq_ci p c = true -> c = p.
Proof.
  unfold eq_ci, upperUnit, isLowerAscii, isUpperAscii, in_range.
  intros Hlow Hup. rewrite Hlow.
  destruct ((97 <=? c)%N && (c <=? 122)%N) eqn:Hc.
  - intros Heq. apply N.eqb_eq in Heq.
    apply andb_true_iff in Hc as [H1 H2].
    apply N.leb_le in H1, H2.
    apply andb_false_iff in Hup.
    destruct Hup as [Hup|Hup]; apply N.leb_gt in Hup; lia.
  - intros Heq. by apply N.eqb_eq in Heq.
Qed.

Lemma prefix_ci_elem (pat s : jsstring) (p : N) :
  isLowerAscii p = false -> isUpperAscii p = false ->
  p ∈ pat -> prefix_ci pat s = true -> p ∈ s.
Proof.
  intros Hlow Hup Hp. revert s.
  induction pat as [|q pat IH]; intros s; [by apply elem_of_nil in Hp|].
  destruct s as [|c s]; simpl; [done|].
  intros Hmatch. apply andb_true_iff in Hmatch as [Hq Hrest].
  apply elem_of_cons in Hp as [->|Hp].
  - apply (eq_ci_ascii _ c Hlow Hup) in Hq. subst c. left.
  - right. by apply IH.
Qed.

Lemma matchJavascript_colon (s : jsstring) (n : nat) :
  matchJavascript s = Some n -> 58%N ∈ s.
Proof.
  unfold matchJavascript.
  destruct (prefix_ci (lit "javascript:") s) eqn:Hmatch; [|done].
  intros _. apply (prefix_ci_elem (lit "javascript:") s 58); try done.
  simpl. set_solver.
Qed.

Lemma matchEventHandler_equals (s : jsstring) (n : nat) :
  matchEventHandler s = Some n -> 61%N ∈ s.
Proof.
  unfold matchEventHandler.
  destruct (prefix_ci (lit "on") s); [|done].
  destruct (wordRun (drop 2 s)) as [|w]; [done|].
  destruct (drop (2 + S w) s) as [|c rest] eqn:Hdrop; [done|].
  destruct (N.eqb_spec c 61) as [->|]; [|done].
  intros _. rewrite <- (take_drop (2 + S w) s), Hdrop.
  apply elem_of_app. right. left.
Qed.

Lemma removeAll_nothing (m : jsstring -> option nat) (s : jsstring) :
  (forall t, t `suffix_of` s -> m t = None) -> removeAll m 0 s = s.
Proof.
  induction s as [|c s IH]; intros Hnone; simpl; [done|].
  rewrite (Hnone (c :: s)) by done.
  f_equal. apply IH. intros t Ht. apply Hnone. by apply suffix_cons_r.
Qed.

Lemma suffix_elem (x : N) (t s : jsstring) :
  t `suffix_of` s -> x ∈ t -> x ∈ s.
Proof. intros [pre ->] Hx. apply elem_of_app. by right. Qed.

(** A non-empty text with none of [<], [>], [:] and [=], without white space
    at either end and of at most [maxLength] units, is returned as it is. *)
Theorem sanitizeInput_keeps_plain_text (s : jsstring) (maxLength : Z) :
  s <> [] ->
  Forall (fun c => c <> 60 /\ c <> 62 /\ c <> 58 /\ c <> 61)%N s ->
  trim s = s ->
  Z.of_nat (length s) <= maxLength ->
  sanitizeInput (JsString s) maxLength = Some s.
Proof.
  intros Hne Hplain Htrim Hfits.
  destruct s as [|c s]; [done|].
  rewrite SecurityFacts.sanitizeInput_sanitized. f_equal.
  unfold sanitized, stripped.
  rewrite Forall_forall in Hplain.
  assert (Hangle : removeAngleBrackets (c :: s) = c :: s).
  { unfold removeAngleBrackets. apply List.forallb_filter_id.
    apply forallb_forall. intros x Hx. apply list_elem_of_In in Hx.
    destruct (Hplain x Hx) as (H60 & H62 & _).
    unfold isAngleBracket.
    apply N.eqb_neq in H60, H62. by rewrite H60, H62. }
  rewrite Hangle.
  rewrite (removeAll_nothing matchJavascript).
  2:{ intros t Ht. destruct (matchJavascript t) as [n|] eqn:Hm; [|done].
      apply matchJavascript_colon in Hm.
      apply (suffix_elem _ _ _ Ht) in Hm. destruct (Hplain _ Hm). tauto. }
  rewrite (removeAll_nothing matchEventHandler).
  2:{ intros t Ht. destruct (matchEventHandler t) as [n|] eqn:Hm; [|done].
      apply matchEventHandler_equals in Hm.
      apply (suffix_elem _ _ _ Ht) in Hm. destruct (Hplain _ Hm). tauto. }
  rewrite Htrim. apply take_ge. lia.
Qed.

Lemma sanitizeInput_keeps_plain_text_witness :
  sanitizeInput (JsString (lit "last week only")) 500
  = Some (lit "last week only").
Proof.
  apply (sanitizeInput_keeps_plain_text (lit "last week only") 500).
  - discriminate.
  - repeat constructor; discriminate.
  - reflexivity.
  - simpl. lia.
Defined.

End SanitizerMore.

(** ** The utilities *)

Module UtilsFacts.
Import D1 Stats Api Utils.

(** Whatever the query holds, [sanitizeLimit] returns an integer between 1
    and [MAX_LIMIT], 10 when there is no number to read; a leaderboard
    function of a supported platform accepts it. *)
Theorem sanitizeLimit_valid (limit : option jsstring) :
  exists z,
    sanitizeLimit limit = Int z
    /\ 1 <= z <= MAX_LIMIT
    /\ (parseInt10 (orElse limit []) = NaN -> z = DEFAULT_LIMIT)
    /\ forall platform,
         invalidPlatform platform = false ->
         validateDatabaseParams platform (sanitizeLimit limit) = None.
Proof.
  assert (Hok : forall z platform, 1 <= z <= MAX_LIMIT ->
            invalidPlatform platform = false ->
            validateDatabaseParams platform (Int z) = None).
  { intros z platform Hz Hp. unfold validateDatabaseParams, MAX_LIMIT in *.
    rewrite Hp. by rewrite bool_decide_eq_false_2 by lia. }
  unfold sanitizeLimit, orElse, MAX_LIMIT, DEFAULT_LIMIT in *.
  destruct limit as [[|c s]|]; [exists 10| |exists 10].
  2:{ destruct (parseInt10 (c :: s)) as [parsed| |];
        [exists (Z.min (Z.max 1 parsed) 100) | exists 10 | exists 10];
        repeat split;
        first [lia | done | (intros; apply Hok; [lia|done])]. }
  all: repeat split; first [lia | done | (intros; apply Hok; [lia|done])].
Qed.

Lemma sanitizeLimit_valid_witness :
  validateDatabaseParams (lit "telegram") (sanitizeLimit (Some (lit "-3")))
  = None.
Proof.
  destruct (sanitizeLimit_valid (Some (lit "-3"))) as (z & _ & _ & _ & Hok).
  apply Hok. reflexivity.
Defined.

End UtilsFacts.

(** ** The Telegram commands *)

Module TelegramFacts.
Import Telegram.

Lemma startsWith_spec (prefix s : jsstring) :
  startsWith prefix s = true <-> exists rest, s = prefix ++ rest.
Proof.
  revert s. induction prefix as [|p prefix IH]; intros s; simpl.
  - split; [by exists s | done].
  - destruct s as [|c s].
    + split; [done | intros [rest Hrest]; discriminate].
    + rewrite andb_true_iff, IH. split.
      * intros [Hp [rest ->]]. apply N.eqb_eq in Hp. subst. by exists rest.
      * intros [rest [= -> ->]]. split; [apply N.eqb_refl | by exists rest].
Qed.

(** A text that begins with [/leaderboard] starts the statistics handler: the
    leaderboard handler is started for [/top] and [/ranking] only. *)
Theorem leaderboard_command_shadowed (text : option jsstring) :
  (forall rest,
     dispatch (Some (lit "/leaderboard" ++ rest)) = Some StatsCommand)
  /\ (dispatch text = Some Leaderboard
      <-> exists rest,
            text = Some (lit "/top" ++ rest)
            \/ text = Some (lit "/ranking" ++ rest)).
Proof.
  split; [reflexivity|]. split.
  - unfold dispatch.
    destruct (isSummaryCommand text); [done|].
    destruct (isPingCommand text); [done|].
    destruct (isHelpCommand text); [done|].
    destruct (isStatsCommand text) eqn:Hstats; [done|].
    destruct (isMyStatsCommand text); [done|].
    destruct (isLeaderboardCommand text) eqn:Hboard;
      [|by repeat case_match].
    intros _. unfold isStatsCommand, isLeaderboardCommand, onText in *.
    destruct text as [[|c t]|]; try done.
    apply orb_false_iff in Hstats as [_ Hnot]. rewrite Hnot in Hboard.
    rewrite orb_false_l in Hboard. apply orb_true_iff in Hboard as [Hp|Hp];
      apply startsWith_spec in Hp as [rest Hp]; exists rest;
      rewrite Hp; [by left | by right].
  - intros [rest [->| ->]]; reflexivity.
Qed.

Lemma leaderboard_command_shadowed_witness :
  dispatch (Some (lit "/top 5")) = Some Leaderboard.
Proof.
  apply (proj2 (leaderboard_command_shadowed (Some (lit "/top 5")))).
  exists (lit " 5"). by left.
Defined.

End TelegramFacts.

(** ** More on message tracking *)

Module TrackingMore.
Import D1 Tracking TrackingFacts Shape Samples.

(** A call either is refused, and then throws with the store as it was and no
    statement run, or runs exactly two statements, the one on [users] and
    then the one on [chat_counter], and returns. *)
Theorem trackMessage_statements (m : message) (db : database) :
  (validCall m = false ->
   exists message,
     trackMessage (msg_today m) (msg_platform m) (msg_userId m)
       (msg_displayName m) (msg_length m) db = (Throws message, db))
  /\ (validCall m = true ->
      (trackMessage (msg_today m) (msg_platform m) (msg_userId m)
         (msg_displayName m) (msg_length m) db).1 = Returns tt
      /\ statements (track db m)
         = statements db
           ++ ["trackMessage-ensureUser"; "trackMessage-updateCounter"]%string).
Proof.
  split.
  - unfold validCall, trackMessage.
    destruct (validateTrackingParams _ _ _ _) as [message|]; [eauto|done].
  - intros Hok. unfold track.
    destruct (trackMessage_validCall m db Hok) as (len & _ & _ & _ & ->).
    simpl. by rewrite <- app_assoc.
Qed.

Lemma trackMessage_statements_witness :
  statements (track D1.empty annFirst)
  = statements D1.empty
    ++ ["trackMessage-ensureUser"; "trackMessage-updateCounter"]%string.
Proof.
  apply (trackMessage_statements annFirst D1.empty). reflexivity.
Defined.

(** *** Rows the calls are not about *)

Lemma rows_untouched (k : jsstring * jsstring * jsstring)
    (ms : list message) (db : database) :
  callsFor k ms = [] ->
  chat_counter (trackAll ms db) !! k = chat_counter db !! k.
Proof.
  revert db. induction ms as [|m ms IH]; intros db; [done|].
  unfold callsFor. simpl.
  destruct (validCall m && bool_decide (counterKey m = k)) eqn:Hhit; [done|].
  intros Hnone. rewrite (IH (track db m) Hnone).
  by apply track_counter_other.
Qed.

(** The row of a key that had none, after any calls. *)
Lemma counter_from_none (k : jsstring * jsstring * jsstring)
    (ms : list message) (db : database) :
  chat_counter db !! k = None ->
  chat_counter (trackAll ms db) !! k
  = match callsFor k ms with
    | [] => None
    | calls => Some {| message_count := Z.of_nat (length calls);
                       message_length := totalLength calls |}
    end.
Proof.
  revert db. induction ms as [|m ms IH]; intros db Hnone; [done|].
  unfold callsFor in *. simpl.
  destruct (validCall m && bool_decide (counterKey m = k)) eqn:Hhit.
  - apply andb_true_iff in Hhit as [Hok Hkey].
    apply bool_decide_eq_true in Hkey. subst k.
    pose proof (track_counter_same m db Hok) as Hstep.
    rewrite Hnone in Hstep.
    rewrite (trackAll_counter_grows _ ms _ _ Hstep). f_equal.
    cbn [message_count message_length length totalLength foldr].
    f_equal; unfold callsFor, totalLength; lia.
  - apply IH. by rewrite track_counter_other.
Qed.

(** A row of [chat_counter] no accepted call is about is left as it was. *)
Theorem other_rows_untouched (k : jsstring * jsstring * jsstring)
    (ms : list message) (db : database) :
  callsFor k ms = [] ->
  chat_counter (trackAll ms db) !! k = chat_counter db !! k.
Proof. apply rows_untouched. Qed.

Lemma other_rows_untouched_witness :
  chat_counter (trackAll [bob] (trackAll [annFirst] D1.empty)) !! annToday
  = chat_counter (trackAll [annFirst] D1.empty) !! annToday.
Proof.
  apply (other_rows_untouched annToday [bob] (trackAll [annFirst] D1.empty)).
  reflexivity.
Defined.

(** *** Counters only grow *)

Lemma lengthOf_nonneg (m : message) : validCall m = true -> 0 <= lengthOf m.
Proof.
  intros Hok.
  destruct (trackMessage_validCall m D1.empty Hok) as (len & _ & Hlen & <- & _).
  done.
Qed.

Lemma totalLength_callsFor_nonneg (k : jsstring * jsstring * jsstring)
    (ms : list message) :
  0 <= totalLength (callsFor k ms).
Proof.
  unfold callsFor. induction ms as [|m ms IH]; simpl; [done|].
  destruct (validCall m) eqn:Hok; simpl; [|done].
  case_bool_decide; simpl; [|done].
  pose proof (lengthOf_nonneg m Hok). lia.
Qed.

(** A row of [chat_counter] is never deleted, and neither of its two numbers
    ever goes down, whatever calls follow. *)
Theorem counters_only_grow (k : jsstring * jsstring * jsstring)
    (ms : list message) (db : database) (c : counter) :
  chat_counter db !! k = Some c ->
  exists c',
    chat_counter (trackAll ms db) !! k = Some c'
    /\ message_count c <= message_count c'
    /\ message_length c <= message_length c'.
Proof.
  intros Hrow. eexists. split; [by apply trackAll_counter_grows|].
  pose proof (totalLength_callsFor_nonneg k ms). simpl. lia.
Qed.

Lemma counters_only_grow_witness :
  exists c',
    chat_counter (trackAll [bob; annRenamed] (trackAll [annFirst] D1.empty))
      !! annToday = Some c'
    /\ 1 <= message_count c' /\ 5 <= message_length c'.
Proof.
  apply (counters_only_grow annToday [bob; annRenamed]
           (trackAll [annFirst] D1.empty)
           {| message_count := 1; message_length := 5 |}).
  reflexivity.
Defined.

(** *** The first name seen *)

(** The first accepted call for a user with no row yet stores the trimmed
    display name of that call, and no later call changes it. *)
Theorem first_name_is_stored (m : message) (ms : list message)
    (db : database) :
  validCall m = true ->
  users db !! (trim (toLowerCase (msg_platform m)), trim (msg_userId m))
  = None ->
  users (trackAll (m :: ms) db)
    !! (trim (toLowerCase (msg_platform m)), trim (msg_userId m))
  = Some (trim (msg_displayName m)).
Proof.
  intros Hok Hnew. simpl.
  assert (Hfirst : users (track db m)
            !! (trim (toLowerCase (msg_platform m)), trim (msg_userId m))
          = Some (trim (msg_displayName m))).
  { unfold track.
    destruct (trackMessage_validCall m db Hok) as (len & _ & _ & _ & ->).
    simpl. rewrite Hnew. by rewrite lookup_insert_eq. }
  revert Hfirst. generalize (track db m). clear.
  induction ms as [|m' ms IH]; intros db Hrow; [done|].
  simpl. apply IH. by apply track_users_kept.
Qed.

Lemma first_name_is_stored_witness :
  users (trackAll [annFirst; annRenamed] D1.empty)
    !! (trim (toLowerCase (lit "Telegram")), trim (lit " 42 "))
  = Some (trim (lit "Ann")).
Proof.
  apply (first_name_is_stored annFirst [annRenamed] D1.empty); reflexivity.
Defined.

(** *** The shape of the store *)

Lemma trim_supported (platform : jsstring) :
  invalidPlatform platform = false ->
  trim (toLowerCase platform) ∈ supportedPlatforms.
Proof.
  unfold invalidPlatform, includes. intros Hok.
  apply orb_false_iff in Hok as [_ Hok].
  apply negb_false_iff, bool_decide_eq_true in Hok.
  unfold supportedPlatforms in *.
  repeat (apply elem_of_cons in Hok as [->|Hok]; [set_solver|]).
  by apply elem_of_nil in Hok.
Qed.

Lemma trim_idemp (s : jsstring) : trim (trim s) = trim s.
Proof.
  transitivity (trimEnd (trimStart (trim s))); [done|].
  by rewrite SecurityFacts.trimStart_trim, SecurityFacts.trimEnd_trim.
Qed.

Lemma validCall_parts (m : message) :
  validCall m = true ->
  invalidPlatform (msg_platform m) = false /\ blank (msg_userId m) = false.
Proof.
  unfold validCall, validateTrackingParams.
  destruct (invalidPlatform _); [done|].
  by destruct (blank (msg_userId m)).
Qed.

Lemma wellFormed_track (m : message) (db : database) :
  wellFormed db -> wellFormed (track db m).
Proof.
  intros Hwf. destruct (validCall m) eqn:Hok; [|by rewrite track_refused].
  destruct (validCall_parts m Hok) as [Hplatform Huser].
  pose proof (trim_supported _ Hplatform) as Hp.
  apply orb_false_iff in Huser as [_ Huser].
  unfold track.
  destruct (trackMessage_validCall m db Hok) as (len & _ & Hlen & _ & ->).
  set (p := trim (toLowerCase (msg_platform m))) in *.
  set (u := trim (msg_userId m)) in *.
  assert (Hu : u <> [] /\ trim u = u).
  { split; [by destruct u|]. apply trim_idemp. }
  intros d' p' u' c'. simpl.
  assert (Huser' : is_Some
    (match users db !! (p, u) with
     | Some _ => users db
     | None => <[(p, u) := trim (msg_displayName m)]> (users db)
     end !! (p, u))).
  { destruct (users db !! (p, u)) eqn:Hthere; [by rewrite Hthere|].
    by rewrite lookup_insert_eq. }
  assert (Hkept : forall key, is_Some (users db !! key) -> is_Some
    (match users db !! (p, u) with
     | Some _ => users db
     | None => <[(p, u) := trim (msg_displayName m)]> (users db)
     end !! key)).
  { intros key Hkey. destruct (users db !! (p, u)) eqn:Hthere; [done|].
    destruct (decide ((p, u) = key)) as [<-|Hne].
    - by rewrite lookup_insert_eq.
    - by rewrite lookup_insert_ne. }
  destruct (decide ((msg_today m, p, u) = (d', p', u'))) as [[= <- <- <-]|Hne].
  - destruct (chat_counter db !! (msg_today m, p, u)) as [c0|] eqn:Hrow;
      rewrite lookup_insert_eq; intros [= <-]; simpl.
    + destruct (Hwf _ _ _ _ Hrow) as (_ & _ & _ & _ & Hcount & Hlength).
      destruct Hu. repeat split; try done; lia.
    + destruct Hu. repeat split; try done; lia.
  - destruct (chat_counter db !! (msg_today m, p, u)) as [c0|] eqn:Hrow;
      rewrite lookup_insert_ne by done; intros Hrow';
      destruct (Hwf _ _ _ _ Hrow') as (? & ? & ? & ? & ? & ?);
      repeat split; try done; by apply Hkept.
Qed.

Lemma wellFormed_trackAll (ms : list message) (db : database) :
  wellFormed db -> wellFormed (trackAll ms db).
Proof.
  revert db. induction ms as [|m ms IH]; intros db Hwf; [done|].
  simpl. apply IH. by apply wellFormed_track.
Qed.

Lemma wellFormed_empty : wellFormed D1.empty.
Proof. intros d p u c Hrow. simpl in Hrow. by rewrite lookup_empty in Hrow. Qed.

(** A store filled by [trackMessage] alone, starting empty, is well formed:
    in particular each counter row has its row of [users]. *)
Theorem tracked_store_wellFormed (ms : list message) :
  wellFormed (trackAll ms D1.empty).
Proof. apply wellFormed_trackAll, wellFormed_empty. Qed.

Lemma tracked_store_wellFormed_witness :
  lit "telegram" ∈ supportedPlatforms
  /\ lit "42" <> [] /\ trim (lit "42") = lit "42"
  /\ is_Some (users (trackAll [annFirst] D1.empty)
                !! (lit "telegram", lit "42"))
  /\ 1 <= 1 /\ 0 <= 5.
Proof.
  apply (tracked_store_wellFormed [annFirst] (lit "2024-01-10")
           (lit "telegram") (lit "42")
           {| message_count := 1; message_length := 5 |}).
  reflexivity.
Defined.

End TrackingMore.

(** ** More on the statistics *)

Module StatsMore.
Import D1 Tracking TrackingFacts Stats StatsFacts Shape Samples.

(** *** Sums over the rows of [chat_counter] *)

Lemma counts_countRow (db : database) (platform : jsstring)
    (dateOk : jsstring -> bool) :
  counts db platform dateOk
  = omap (countRow platform dateOk) (map_to_list (chat_counter db)).
Proof. reflexivity. Qed.

Lemma countRow_Some (platform : jsstring) (dateOk : jsstring -> bool)
    (row : jsstring * jsstring * jsstring * counter) (r : jsstring * Z) :
  countRow platform dateOk row = Some r
  <-> exists d, row.1 = (d, platform, r.1) /\ dateOk d = true
                /\ r.2 = message_count row.2.
Proof.
  destruct row as [[[d p] u] c], r as [u' n]. unfold countRow. simpl.
  case_bool_decide as Hp; simpl.
  - subst p. destruct (dateOk d) eqn:Hd.
    + split.
      * intros [= <- <-]. by exists d.
      * intros (d' & [= -> ->] & _ & ->). done.
    + split; [done|]. intros (d' & [= -> ->] & Hd' & _). congruence.
  - split; [done|]. intros (d' & [= -> -> ->] & _). done.
Qed.

Lemma elem_of_counts (db : database) (platform : jsstring)
    (dateOk : jsstring -> bool) (u : jsstring) :
  u ∈ (counts db platform dateOk).*1
  <-> exists d c, chat_counter db !! (d, platform, u) = Some c
                  /\ dateOk d = true.
Proof.
  rewrite counts_countRow, list_elem_of_fmap. split.
  - intros ([u' n] & -> & Hin). apply list_elem_of_omap in Hin.
    destruct Hin as ([k c] & Hin & Hrow).
    apply countRow_Some in Hrow as (d & Hk & Hd & _). simpl in *. subst k.
    apply elem_of_map_to_list in Hin. eauto.
  - intros (d & c & Hrow & Hd). exists (u, message_count c). split; [done|].
    apply list_elem_of_omap. exists ((d, platform, u), c).
    split; [by apply elem_of_map_to_list|].
    apply countRow_Some. by exists d.
Qed.

(** The sum for one user on one date is the count of the one row there can
    be. *)
Lemma userTotal_onDate_list (platform date u : jsstring)
    (l : list (jsstring * jsstring * jsstring * counter)) :
  NoDup (l.*1) ->
  (forall c, ((date, platform, u), c) ∈ l ->
     sumZ (snd <$> List.filter (fun r => bool_decide (r.1 = u))
                     (omap (countRow platform (onDate date)) l))
     = message_count c)
  /\ ((date, platform, u) ∉ l.*1 ->
      sumZ (snd <$> List.filter (fun r => bool_decide (r.1 = u))
                      (omap (countRow platform (onDate date)) l)) = 0).
Proof.
  induction l as [|[k c0] l IH]; intros Hnodup.
  - split; [intros c Hc; by apply elem_of_nil in Hc | done].
  - rewrite fmap_cons in Hnodup. apply NoDup_cons in Hnodup as [Hfresh Hnodup].
    destruct (IH Hnodup) as [IHin IHout]. clear IH.
    cbn [omap list_omap]. rewrite fmap_cons. cbn [fst].
    destruct (countRow platform (onDate date) (k, c0)) as [[u' n]|] eqn:Hrow.
    + apply countRow_Some in Hrow as (d & Hk & Hd & Hn).
      cbn [fst snd] in Hk, Hn.
      apply bool_decide_eq_true in Hd. subst d k n.
      cbn [List.filter fst]. case_bool_decide as Hu.
      * subst u'. rewrite fmap_cons. cbn [sumZ foldr snd].
        change (foldr Z.add 0 ?x) with (sumZ x).
        rewrite IHout by done. split.
        -- intros c Hc. apply elem_of_cons in Hc as [[= ->]|Hc]; [lia|].
           destruct Hfresh. by apply (list_elem_of_fmap_2 fst) in Hc.
        -- intros Hout. destruct Hout. left.
      * split.
        -- intros c Hc. apply elem_of_cons in Hc as [[= ?]|Hc]; [done|].
           by apply IHin.
        -- intros Hout. apply IHout. intros Hin. apply Hout. by right.
    + split.
      * intros c Hc. apply elem_of_cons in Hc as [[= <- <-]|Hc];
          [|by apply IHin].
        assert (countRow platform (onDate date) (date, platform, u, c)
                = Some (u, message_count c)) as Hsome.
        { apply countRow_Some. exists date. repeat split.
          by apply bool_decide_eq_true. }
        congruence.
      * intros Hout. apply IHout. intros Hin. apply Hout. by right.
Qed.

Lemma userTotal_onDate (db : database) (platform date u : jsstring) :
  userTotal db platform u (onDate date)
  = match chat_counter db !! (date, platform, u) with
    | Some c => message_count c
    | None => 0
    end.
Proof.
  unfold userTotal. rewrite counts_countRow.
  destruct (userTotal_onDate_list platform date u
              (map_to_list (chat_counter db))
              (NoDup_fst_map_to_list _)) as [Hin Hout].
  destruct (chat_counter db !! (date, platform, u)) as [c|] eqn:Hrow.
  - apply Hin. by apply elem_of_map_to_list.
  - apply Hout. intros Hk.
    apply list_elem_of_fmap in Hk as ([k c] & Heq & Hk).
    apply elem_of_map_to_list in Hk. simpl in Heq. congruence.
Qed.

(** What is tracked today is what [getUserStats] reports as [daily]: starting
    without a row for the user today, after any sequence of calls [daily] is
    the number of accepted calls about that row. *)
Theorem daily_counts_tracked_messages (clk : clock) (platform userId : jsstring)
    (ms : list message) (db : database) :
  invalidPlatform platform = false -> blank userId = false ->
  chat_counter db !! (today clk, toLowerCase platform, trim userId) = None ->
  exists stats,
    (getUserStats clk platform userId (trackAll ms db)).1 = Returns stats
    /\ daily stats
       = Z.of_nat (length (callsFor
           (today clk, toLowerCase platform, trim userId) ms)).
Proof.
  intros Hplatform Huser Hnone. unfold getUserStats.
  rewrite Hplatform, Huser. eexists. split; [reflexivity|]. simpl.
  rewrite userTotal_onDate.
  set (k := (today clk, toLowerCase platform, trim userId)) in *.
  rewrite (TrackingMore.counter_from_none k ms db Hnone).
  by destruct (callsFor k ms).
Qed.

Lemma daily_counts_tracked_messages_witness :
  exists stats,
    (getUserStats january (lit "telegram") (lit "42") threeMessages).1
    = Returns stats
    /\ daily stats
       = Z.of_nat (length (callsFor
           (today january, toLowerCase (lit "telegram"), trim (lit "42"))
           [annFirst; bob; annRenamed])).
Proof.
  apply (daily_counts_tracked_messages january (lit "telegram") (lit "42")
           [annFirst; bob; annRenamed] D1.empty); reflexivity.
Defined.

(** *** The total of a platform *)

Lemma sumZ_Permutation (l l' : list Z) : l ≡ₚ l' -> sumZ l = sumZ l'.
Proof.
  unfold sumZ. induction 1; simpl; lia.
Qed.

(** What a row adds to the total of a platform. *)
Lemma total_cons (platform : jsstring)
    (row : jsstring * jsstring * jsstring * counter)
    (l : list (jsstring * jsstring * jsstring * counter)) :
  sumZ (snd <$> omap (countRow platform always) (row :: l))
  = (if bool_decide (row.1.1.2 = platform) then message_count row.2 else 0)
    + sumZ (snd <$> omap (countRow platform always) l).
Proof.
  destruct row as [[[d p] u] c]. cbn [omap list_omap countRow fst snd].
  case_bool_decide; simpl; [done | lia].
Qed.

Lemma total_insert_fresh (platform : jsstring)
    (k : jsstring * jsstring * jsstring) (c : counter)
    (m : gmap (jsstring * jsstring * jsstring) counter) :
  m !! k = None ->
  sumZ (snd <$> omap (countRow platform always) (map_to_list (<[k := c]> m)))
  = (if bool_decide (k.1.2 = platform) then message_count c else 0)
    + sumZ (snd <$> omap (countRow platform always) (map_to_list m)).
Proof.
  intros Hnone. rewrite <- (total_cons platform (k, c)).
  apply sumZ_Permutation. by rewrite (map_to_list_insert m k c Hnone).
Qed.

Lemma total_insert (platform : jsstring)
    (k : jsstring * jsstring * jsstring) (c : counter)
    (m : gmap (jsstring * jsstring * jsstring) counter) :
  sumZ (snd <$> omap (countRow platform always) (map_to_list (<[k := c]> m)))
  = sumZ (snd <$> omap (countRow platform always) (map_to_list m))
    + (if bool_decide (k.1.2 = platform)
       then message_count c
            - match m !! k with Some c0 => message_count c0 | None => 0 end
       else 0).
Proof.
  destruct (m !! k) as [c0|] eqn:Hrow.
  - rewrite <- (insert_delete_eq m k c).
    rewrite total_insert_fresh by apply lookup_delete_eq.
    rewrite <- (insert_delete_id m k c0 Hrow) at 2.
    rewrite total_insert_fresh by apply lookup_delete_eq.
    case_bool_decide; lia.
  - rewrite total_insert_fresh by done. case_bool_decide; lia.
Qed.

Lemma total_track (platform : jsstring) (m : message) (db : database) :
  sumZ (snd <$> counts (track db m) platform always)
  = sumZ (snd <$> counts db platform always)
    + (if validCall m
          && bool_decide (trim (toLowerCase (msg_platform m)) = platform)
       then 1 else 0).
Proof.
  rewrite !counts_countRow.
  destruct (validCall m) eqn:Hok; [|rewrite track_refused by done; simpl; lia].
  unfold track.
  destruct (trackMessage_validCall m db Hok) as (len & _ & _ & _ & ->).
  cbn [snd chat_counter recorded upsertCounter insertOrIgnoreUser].
  destruct (chat_counter db !! _) as [c0|] eqn:Hrow;
    rewrite total_insert, Hrow; cbn [fst snd message_count andb];
    case_bool_decide; lia.
Qed.

Lemma total_trackAll (platform : jsstring) (ms : list message)
    (db : database) :
  sumZ (snd <$> counts (trackAll ms db) platform always)
  = sumZ (snd <$> counts db platform always)
    + Z.of_nat (length (callsOn platform ms)).
Proof.
  revert db. induction ms as [|m ms IH]; intros db; [simpl; lia|].
  simpl. rewrite IH, total_track. unfold callsOn. simpl.
  destruct (validCall m && bool_decide (_ = platform)); simpl length; lia.
Qed.

(** [totalMessages] counts every accepted message once: after any sequence of
    calls it has grown by the number of accepted calls for the platform. *)
Theorem totalMessages_counts_calls (clk : clock) (platform : jsstring)
    (ms : list message) (db : database) :
  invalidPlatform platform = false ->
  exists before after,
    (getPlatformStats clk platform db).1 = Returns before
    /\ (getPlatformStats clk platform (trackAll ms db)).1 = Returns after
    /\ totalMessages after
       = totalMessages before
         + Z.of_nat (length (callsOn (toLowerCase platform) ms)).
Proof.
  intros Hplatform. unfold getPlatformStats, validateDatabaseParams.
  rewrite Hplatform. simpl. do 2 eexists. split; [reflexivity|].
  split; [reflexivity|]. simpl. apply total_trackAll.
Qed.

Lemma totalMessages_counts_calls_witness :
  exists before after,
    (getPlatformStats january (lit "telegram") D1.empty).1 = Returns before
    /\ (getPlatformStats january (lit "telegram") threeMessages).1
       = Returns after
    /\ totalMessages after
       = totalMessages before
         + Z.of_nat (length (callsOn (toLowerCase (lit "telegram"))
                               [annFirst; bob; annRenamed])).
Proof.
  apply (totalMessages_counts_calls january (lit "telegram")
           [annFirst; bob; annRenamed] D1.empty).
  reflexivity.
Defined.

(** *** The numbers of [getPlatformStats] against each other *)

Lemma countDistinct_mono (l l' : list jsstring) :
  (forall x, x ∈ l -> x ∈ l') -> countDistinct l <= countDistinct l'.
Proof.
  intros Hsub. unfold countDistinct. apply inj_le, submseteq_length.
  apply NoDup_submseteq; [apply NoDup_remove_dups|].
  intros x Hx. rewrite elem_of_remove_dups in Hx.
  rewrite elem_of_remove_dups. by apply Hsub.
Qed.

Lemma users_of_platform (db : database) (platform u : jsstring) :
  u ∈ map (fun r => r.1.2)
        (List.filter (fun r => bool_decide (r.1.1 = platform))
           (map_to_list (users db)))
  <-> is_Some (users db !! (platform, u)).
Proof.
  rewrite list_elem_of_In, in_map_iff. split.
  - intros ([[p u'] name] & <- & Hin).
    apply List.filter_In in Hin as [Hin Hp].
    apply list_elem_of_In, elem_of_map_to_list in Hin.
    apply bool_decide_eq_true in Hp. simpl in *. subst p. eauto.
  - intros [name Hname]. exists ((platform, u), name). split; [done|].
    apply List.filter_In. split.
    + by apply list_elem_of_In, elem_of_map_to_list.
    + by apply bool_decide_eq_true.
Qed.

Lemma remove_dups_length (l : list jsstring) :
  (length (remove_dups l) <= length l)%nat.
Proof.
  induction l as [|x l IH]; simpl; [done|].
  destruct (decide_rel elem_of x l); simpl; lia.
Qed.

Lemma counts_at_least_one (db : database) (platform : jsstring)
    (dateOk : jsstring -> bool) :
  wellFormed db ->
  Z.of_nat (length (counts db platform dateOk))
  <= sumZ (snd <$> counts db platform dateOk).
Proof.
  intros Hwf.
  assert (Hrows : Forall (fun r => 1 <= r.2) (counts db platform dateOk)).
  { apply Forall_forall. intros [u n] Hin. rewrite counts_countRow in Hin.
    apply list_elem_of_omap in Hin as ([k c] & Hin & Hrow).
    apply countRow_Some in Hrow as (d & Hk & _ & Hn). simpl in *. subst k n.
    apply elem_of_map_to_list in Hin.
    by destruct (Hwf _ _ _ _ Hin) as (_ & _ & _ & _ & Hcount & _). }
  induction Hrows as [|r l Hr _ IH]; [done|].
  rewrite fmap_cons. unfold sumZ in *. cbn [foldr length]. lia.
Qed.

(** On a well-formed store, with a clock whose [weekAgo] does not come after
    [today], the figures of [getPlatformStats] are ordered: the users active
    today are at most those active this week, who are at most the users of
    the platform and at most its messages. *)
Theorem platform_figures_ordered (clk : clock) (platform : jsstring)
    (db : database) :
  wellFormed db ->
  invalidPlatform platform = false ->
  leb (weekAgo clk) (today clk) = true ->
  exists stats,
    (getPlatformStats clk platform db).1 = Returns stats
    /\ 0 <= activeToday stats <= activeThisWeek stats
    /\ activeThisWeek stats <= totalUsers stats
    /\ activeThisWeek stats <= totalMessages stats.
Proof.
  intros Hwf Hplatform Hclock. unfold getPlatformStats, validateDatabaseParams.
  rewrite Hplatform. simpl. eexists. split; [reflexivity|]. simpl.
  set (p := toLowerCase platform).
  repeat split.
  - unfold countDistinct. lia.
  - apply countDistinct_mono. intros u Hu.
    apply elem_of_counts in Hu as (d & c & Hrow & Hd).
    apply elem_of_counts. exists d, c. split; [done|].
    apply bool_decide_eq_true in Hd. by subst d.
  - apply countDistinct_mono. intros u Hu.
    apply elem_of_counts in Hu as (d & c & Hrow & _).
    apply users_of_platform.
    by destruct (Hwf _ _ _ _ Hrow) as (_ & _ & _ & Huser & _).
  - etransitivity; [|apply (counts_at_least_one db p always Hwf)].
    etransitivity.
    { apply (countDistinct_mono _ ((counts db p always).*1)).
      intros u Hu. apply elem_of_counts in Hu as (d & c & Hrow & _).
      apply elem_of_counts. by exists d, c. }
    unfold countDistinct. apply inj_le.
    etransitivity; [apply remove_dups_length|].
    by rewrite length_fmap.
Qed.

Lemma platform_figures_ordered_witness :
  exists stats,
    (getPlatformStats january (lit "telegram") threeMessages).1 = Returns stats
    /\ 0 <= activeToday stats <= activeThisWeek stats
    /\ activeThisWeek stats <= totalUsers stats
    /\ activeThisWeek stats <= totalMessages stats.
Proof.
  apply (platform_figures_ordered january (lit "telegram") threeMessages).
  - apply TrackingMore.wellFormed_trackAll, TrackingMore.wellFormed_empty.
  - reflexivity.
  - reflexivity.
Defined.

(** *** Leaderboard rows and user statistics *)

(** The sum a leaderboard shows for a user with a row of [users] is the sum
    over that user's rows of [chat_counter]. *)
Lemma aggregate_userTotal (db : database) (platform : jsstring)
    (dateOk : jsstring -> bool) (u name : jsstring)
    (l : list (jsstring * jsstring * jsstring * counter)) :
  users db !! (platform, u) = Some name ->
  sumZ (messages <$> List.filter (fun e => bool_decide (groupKey e = (u, name)))
                       (omap (joinRow db platform dateOk) l))
  = sumZ (snd <$> List.filter (fun r => bool_decide (r.1 = u))
                    (omap (countRow platform dateOk) l)).
Proof.
  intros Hname. induction l as [|[[[d p] u'] c] l IH]; [done|].
  cbn [omap list_omap joinRow countRow].
  destruct (bool_decide (p = platform) && dateOk d) eqn:Hrow; [|done].
  apply andb_true_iff in Hrow as [Hp _]. apply bool_decide_eq_true in Hp.
  subst p. cbn [List.filter fst].
  destruct (decide (u' = u)) as [->|Hne].
  - rewrite Hname. cbn [List.filter]. unfold groupKey at 1.
    cbn [user_id display_name].
    rewrite !bool_decide_eq_true_2 by done.
    rewrite !fmap_cons. unfold sumZ in *. cbn [foldr messages snd]. lia.
  - rewrite (bool_decide_eq_false_2 (u' = u)) by done.
    destruct (users db !! (platform, u')) as [name'|]; [|done].
    cbn [List.filter]. unfold groupKey at 1. cbn [user_id display_name].
    rewrite bool_decide_eq_false_2 by congruence. done.
Qed.

Lemma summedQuery_rows (db : database) (platform : jsstring)
    (dateOk : jsstring -> bool) (limit : Z) (e : entry) :
  e ∈ summedQuery dateOk platform limit db ->
  users db !! (platform, user_id e) = Some (display_name e)
  /\ messages e = userTotal db platform (user_id e) dateOk
  /\ exists d c, chat_counter db !! (d, platform, user_id e) = Some c.
Proof.
  unfold summedQuery, limitTo, orderBy, groupBy. intros He.
  apply subseteq_take in He.
  rewrite merge_sort_Permutation in He.
  change (map ?f ?l) with (f <$> l) in He.
  apply list_elem_of_fmap in He as ([u name] & -> & Hk).
  rewrite elem_of_remove_dups, list_elem_of_In, in_map_iff in Hk.
  destruct Hk as (e0 & [= <- <-] & He0).
  apply list_elem_of_In, elem_of_joined in He0.
  destruct He0 as (d & c & Hrow & _ & Hname & _).
  cbn [aggregate user_id display_name messages fst snd].
  split; [done|]. split; [|eauto].
  unfold userTotal, joined. rewrite counts_countRow.
  by apply aggregate_userTotal.
Qed.

Lemma dailyQuery_rows (db : database) (platform date : jsstring)
    (limit : Z) (e : entry) :
  e ∈ dailyQuery date platform limit db ->
  users db !! (platform, user_id e) = Some (display_name e)
  /\ messages e = userTotal db platform (user_id e) (onDate date)
  /\ exists d c, chat_counter db !! (d, platform, user_id e) = Some c.
Proof.
  unfold dailyQuery, limitTo, orderBy. intros He.
  apply subseteq_take in He.
  rewrite merge_sort_Permutation in He.
  apply elem_of_joined in He as (d & c & Hrow & Hd & Hname & Hm & _).
  apply bool_decide_eq_true in Hd. subst d.
  split; [done|]. split; [|eauto].
  by rewrite userTotal_onDate, Hrow.
Qed.

Lemma wellFormed_blank (db : database) (d p u : jsstring) (c : counter) :
  wellFormed db -> chat_counter db !! (d, p, u) = Some c ->
  blank u = false /\ trim u = u.
Proof.
  intros Hwf Hrow. destruct (Hwf _ _ _ _ Hrow) as (_ & Hne & Htrim & _).
  split; [|done]. unfold blank. rewrite Htrim. by destruct u.
Qed.

(** On a well-formed store the leaderboards and [getUserStats] agree: a row
    of the daily, weekly, monthly or all-time leaderboard shows, under the
    name stored in [users], the number that [getUserStats] reports for that
    user as [daily], [weekly], [monthly] or [allTime]. *)
Theorem leaderboards_agree_with_user_stats (clk : clock)
    (platform : jsstring) (limit : Z) (db : database) (e : entry) :
  wellFormed db ->
  invalidPlatform platform = false -> 1 <= limit <= 1000 ->
  (forall rows,
     (getDailyLeaderboard clk platform None (Int limit) db).1 = Returns rows ->
     e ∈ rows ->
     users db !! (toLowerCase platform, user_id e) = Some (display_name e)
     /\ exists stats,
          (getUserStats clk platform (user_id e) db).1 = Returns stats
          /\ messages e = daily stats)
  /\ (forall rows,
        (getWeeklyLeaderboard clk platform (Int limit) db).1 = Returns rows ->
        e ∈ rows ->
        users db !! (toLowerCase platform, user_id e) = Some (display_name e)
        /\ exists stats,
             (getUserStats clk platform (user_id e) db).1 = Returns stats
             /\ messages e = weekly stats)
  /\ (forall rows,
        (getMonthlyLeaderboard clk platform (Int limit) db).1 = Returns rows ->
        e ∈ rows ->
        users db !! (toLowerCase platform, user_id e) = Some (display_name e)
        /\ exists stats,
             (getUserStats clk platform (user_id e) db).1 = Returns stats
             /\ messages e = monthly stats)
  /\ (forall rows,
        (getAllTimeLeaderboard platform (Int limit) db).1 = Returns rows ->
        e ∈ rows ->
        users db !! (toLowerCase platform, user_id e) = Some (display_name e)
        /\ exists stats,
             (getUserStats clk platform (user_id e) db).1 = Returns stats
             /\ messages e = allTime stats).
Proof.
  intros Hwf Hplatform Hlimit.
  unfold getDailyLeaderboard, getWeeklyLeaderboard, getMonthlyLeaderboard,
    getAllTimeLeaderboard, targetDate.
  rewrite !leaderboard_valid by done. cbn [fst].
  set (p := toLowerCase platform).
  assert (Hstats : forall d c,
    chat_counter db !! (d, p, user_id e) = Some c ->
    (getUserStats clk platform (user_id e) db).1
    = Returns {| daily := userTotal db p (user_id e) (onDate (today clk));
                 weekly := userTotal db p (user_id e) (since (weekAgo clk));
                 monthly :=
                   userTotal db p (user_id e) (since (startOfMonth clk));
                 allTime := userTotal db p (user_id e) always;
                 rank := rankOf db p (user_id e) |}).
  { intros d c Hrow.
    destruct (wellFormed_blank db d p (user_id e) c Hwf Hrow)
      as [Hblank Htrim].
    unfold getUserStats. rewrite Hplatform, Hblank. cbn [fst]. fold p.
    by rewrite Htrim. }
  split; [|split; [|split]]; intros rows [= <-] He;
    first [apply dailyQuery_rows in He | apply summedQuery_rows in He];
    destruct He as (Hname & Hm & d & c & Hrow);
    (split; [done|]); eexists; (split; [by apply (Hstats d c)|]); done.
Qed.

Lemma leaderboards_agree_with_user_stats_witness :
  users threeMessages !! (toLowerCase (lit "telegram"), lit "42")
  = Some (lit "Ann")
  /\ exists stats,
       (getUserStats january (lit "telegram") (lit "42") threeMessages).1
       = Returns stats
       /\ 2 = allTime stats.
Proof.
  destruct (leaderboards_agree_with_user_stats january (lit "telegram") 10
              threeMessages
              {| user_id := lit "42"; display_name := lit "Ann";
                 messages := 2; chars := 12 |})
    as (_ & _ & _ & Hall).
  - apply TrackingMore.wellFormed_trackAll, TrackingMore.wellFormed_empty.
  - reflexivity.
  - lia.
  - eapply Hall; [reflexivity|].
    vm_compute. apply elem_of_cons. by left.
Defined.

(** *** The rank *)

#[local] Instance totalBefore_transitive : Transitive totalBefore.
Proof. intros a b c. unfold totalBefore. lia. Qed.

#[local] Instance totalBefore_total : Total totalBefore.
Proof. intros a b. unfold totalBefore. lia. Qed.

Lemma rankedUsers_sorted (db : database) (platform : jsstring) :
  StronglySorted totalBefore (rankedUsers db platform).
Proof. apply StronglySorted_merge_sort; apply _. Qed.

Lemma userTotals_names (db : database) (platform : jsstring) :
  (userTotals db platform).*1
  = remove_dups ((counts db platform always).*1).
Proof.
  unfold userTotals.
  change (map ?f ?l) with (f <$> l).
  rewrite <- list_fmap_compose. apply list_fmap_id.
Qed.

Lemma rankedUsers_elem (db : database) (platform u : jsstring) (n : Z) :
  (u, n) ∈ rankedUsers db platform ->
  n = userTotal db platform u always
  /\ exists d c, chat_counter db !! (d, platform, u) = Some c.
Proof.
  unfold rankedUsers. rewrite merge_sort_Permutation. unfold userTotals.
  rewrite list_elem_of_In, in_map_iff. intros (u' & [= -> <-] & Hu).
  split; [done|].
  apply list_elem_of_In in Hu. rewrite elem_of_remove_dups in Hu.
  apply elem_of_counts in Hu as (d & c & Hrow & _). eauto.
Qed.

Lemma rankedUsers_names (db : database) (platform u : jsstring) :
  u ∈ (rankedUsers db platform).*1
  <-> exists d c, chat_counter db !! (d, platform, u) = Some c.
Proof.
  unfold rankedUsers. rewrite merge_sort_Permutation, userTotals_names.
  rewrite elem_of_remove_dups, elem_of_counts. split.
  - intros (d & c & Hrow & _). eauto.
  - intros (d & c & Hrow). by exists d, c.
Qed.

Lemma userTotal_absent (db : database) (platform u : jsstring)
    (dateOk : jsstring -> bool) :
  (forall d, chat_counter db !! (d, platform, u) = None) ->
  userTotal db platform u dateOk = 0.
Proof.
  intros Hnone. unfold userTotal.
  assert (Hout : u ∉ (counts db platform dateOk).*1).
  { intros Hin. apply elem_of_counts in Hin as (d & c & Hrow & _).
    by rewrite Hnone in Hrow. }
  induction (counts db platform dateOk) as [|[u' n] l IH]; [done|].
  rewrite fmap_cons, not_elem_of_cons in Hout. destruct Hout as [Hne Hout].
  cbn [List.filter fst]. rewrite bool_decide_eq_false_2 by done.
  by apply IH.
Qed.

Lemma StronglySorted_lookup_lt {A} (R : relation A) (l : list A)
    (i j : nat) (x y : A) :
  StronglySorted R l -> l !! i = Some x -> l !! j = Some y ->
  (i < j)%nat -> R x y.
Proof.
  intros Hsorted. revert i j.
  induction Hsorted as [|a l _ IH Hall]; intros i j Hi Hj Hlt; [done|].
  destruct j as [|j]; [lia|]. simpl in Hj.
  destruct i as [|i]; simpl in Hi.
  - injection Hi as <-. rewrite Forall_forall in Hall. apply Hall.
    by apply list_elem_of_lookup_2 in Hj.
  - apply (IH i j); [done..|lia].
Qed.

(** [rank] is [null] exactly for a user without any row of [chat_counter] on
    the platform, who then has [allTime = 0]; otherwise it lies between 1 and
    the number of users that have rows. *)
Theorem rank_range (clk : clock) (platform userId : jsstring)
    (db : database) :
  invalidPlatform platform = false -> blank userId = false ->
  exists stats,
    (getUserStats clk platform userId db).1 = Returns stats
    /\ (rank stats = None
        <-> forall d,
              chat_counter db !! (d, toLowerCase platform, trim userId) = None)
    /\ (rank stats = None -> allTime stats = 0)
    /\ (forall r, rank stats = Some r ->
          1 <= r <= countDistinct ((counts db (toLowerCase platform) always).*1)).
Proof.
  intros Hplatform Huser. unfold getUserStats. rewrite Hplatform, Huser.
  eexists. split; [reflexivity|]. cbn [fst rank allTime].
  set (p := toLowerCase platform). set (u := trim userId).
  assert (Hnone : rankOf db p u = None
                  <-> forall d, chat_counter db !! (d, p, u) = None).
  { unfold rankOf. rewrite fmap_None, list_find_None, Forall_forall. split.
    - intros Hall d. destruct (chat_counter db !! (d, p, u)) as [c|] eqn:Hrow;
        [|done].
      assert (Hin : u ∈ (rankedUsers db p).*1)
        by (apply rankedUsers_names; eauto).
      apply list_elem_of_fmap in Hin as ([u' n] & -> & Hin).
      by destruct (Hall _ Hin).
    - intros Hrows [u' n] Hin Hu. simpl in Hu. subst u'.
      apply rankedUsers_elem in Hin as (_ & d & c & Hrow).
      by rewrite Hrows in Hrow. }
  split; [done|]. split.
  - intros Hrank. apply userTotal_absent. by apply Hnone.
  - intros r. unfold rankOf. rewrite fmap_Some.
    intros ([i x] & Hfind & ->). apply list_find_Some in Hfind as (Hi & _).
    apply lookup_lt_Some in Hi. cbn [fst].
    unfold countDistinct. rewrite <- userTotals_names, length_fmap.
    unfold rankedUsers in Hi.
    rewrite (Permutation_length (merge_sort_Permutation _ _)) in Hi. lia.
Qed.

Lemma rank_range_witness :
  exists stats,
    (getUserStats january (lit "telegram") (lit "nobody") threeMessages).1
    = Returns stats
    /\ (rank stats = None
        <-> forall d,
              chat_counter threeMessages
                !! (d, toLowerCase (lit "telegram"), trim (lit "nobody"))
              = None)
    /\ (rank stats = None -> allTime stats = 0)
    /\ (forall r, rank stats = Some r ->
          1 <= r <= countDistinct
                      ((counts threeMessages (toLowerCase (lit "telegram"))
                          always).*1)).
Proof.
  apply (rank_range january (lit "telegram") (lit "nobody") threeMessages);
    reflexivity.
Defined.

(** Of two ranked users, the one with more messages in all has the better
    rank. *)
Theorem rank_follows_total (clk : clock) (platform u v : jsstring)
    (db : database) (su sv : userStats) (r q : Z) :
  (getUserStats clk platform u db).1 = Returns su ->
  (getUserStats clk platform v db).1 = Returns sv ->
  rank su = Some r -> rank sv = Some q ->
  allTime su < allTime sv ->
  q < r.
Proof.
  unfold getUserStats.
  destruct (invalidPlatform platform); [done|].
  destruct (blank u); [done|]. destruct (blank v); [done|].
  cbn [fst]. intros [= <-] [= <-]. cbn [rank allTime].
  set (p := toLowerCase platform).
  unfold rankOf. rewrite !fmap_Some.
  intros ([i [u' tu]] & Hfu & ->) ([j [v' tv]] & Hfv & ->).
  apply list_find_Some in Hfu as (Hi & Hu & _).
  apply list_find_Some in Hfv as (Hj & Hv & _).
  cbn [fst] in *. subst u' v'.
  destruct (rankedUsers_elem db p _ _ (list_elem_of_lookup_2 _ _ _ Hi))
    as [-> _].
  destruct (rankedUsers_elem db p _ _ (list_elem_of_lookup_2 _ _ _ Hj))
    as [-> _].
  intros Hless.
  destruct (decide (i < j)%nat) as [Hij|Hij].
  - pose proof (StronglySorted_lookup_lt _ _ _ _ _ _
                  (rankedUsers_sorted db p) Hi Hj Hij) as Hord.
    unfold totalBefore in Hord. simpl in Hord. lia.
  - destruct (decide (i = j)) as [->|Hne]; [|lia].
    rewrite Hi in Hj. injection Hj as Huv _.
    rewrite Huv in Hless. lia.
Qed.

Lemma rank_follows_total_witness : 1 < 2.
Proof.
  apply (rank_follows_total january (lit "telegram") (lit "7") (lit "42")
           threeMessages
           {| daily := 1; weekly := 1; monthly := 1; allTime := 1;
              rank := Some 2 |}
           {| daily := 2; weekly := 2; monthly := 2; allTime := 2;
              rank := Some 1 |} 2 1); reflexivity.
Defined.

(** *** The figures of [getUserStats] against each other *)

Lemma userTotal_mono (db : database) (platform u : jsstring)
    (ok ok' : jsstring -> bool) :
  wellFormed db ->
  (forall d, ok d = true -> ok' d = true) ->
  0 <= userTotal db platform u ok <= userTotal db platform u ok'.
Proof.
  intros Hwf Hsub. unfold userTotal. rewrite !counts_countRow.
  assert (Hrows : Forall (fun row => 1 <= message_count row.2)
                    (map_to_list (chat_counter db))).
  { apply Forall_forall. intros [[[d p] u'] c] Hin.
    apply elem_of_map_to_list in Hin.
    by destruct (Hwf _ _ _ _ Hin) as (_ & _ & _ & _ & Hcount & _). }
  change (map (@snd jsstring Z)) with (fmap (M := list) (@snd jsstring Z)).
  induction Hrows as [|[[[d p] u'] c] l Hc _ IH]; [done|].
  cbn [omap list_omap countRow]. cbn [snd] in Hc.
  destruct (bool_decide (p = platform)); cbn [andb]; [|exact IH].
  destruct (ok d) eqn:Hd.
  - rewrite (Hsub d Hd). cbn [List.filter fst].
    destruct (bool_decide (u' = u)); [|exact IH].
    rewrite !fmap_cons. unfold sumZ in *. cbn [foldr snd]. lia.
  - destruct (ok' d); [|exact IH]. cbn [List.filter fst].
    destruct (bool_decide (u' = u)); [|exact IH].
    rewrite !fmap_cons. unfold sumZ in *. cbn [foldr snd]. lia.
Qed.

(** On a well-formed store, with a clock whose [weekAgo] does not come after
    [today], the figures of [getUserStats] are ordered: [daily] is at most
    [weekly], and [weekly] and [monthly] are at most [allTime]; none is
    negative. *)
Theorem user_figures_ordered (clk : clock) (platform userId : jsstring)
    (db : database) :
  wellFormed db ->
  invalidPlatform platform = false -> blank userId = false ->
  leb (weekAgo clk) (today clk) = true ->
  exists stats,
    (getUserStats clk platform userId db).1 = Returns stats
    /\ 0 <= daily stats <= weekly stats
    /\ weekly stats <= allTime stats
    /\ 0 <= monthly stats <= allTime stats.
Proof.
  intros Hwf Hplatform Huser Hclock. unfold getUserStats.
  rewrite Hplatform, Huser. eexists. split; [reflexivity|].
  cbn [fst daily weekly monthly allTime].
  set (p := toLowerCase platform). set (u := trim userId).
  assert (Hday : forall d, onDate (today clk) d = true ->
                           since (weekAgo clk) d = true).
  { intros d Hd. apply bool_decide_eq_true in Hd. by subst d. }
  pose proof (userTotal_mono db p u _ _ Hwf Hday).
  pose proof (userTotal_mono db p u (since (weekAgo clk)) always Hwf
                (fun _ _ => eq_refl)).
  pose proof (userTotal_mono db p u (since (startOfMonth clk)) always Hwf
                (fun _ _ => eq_refl)).
  lia.
Qed.

Lemma user_figures_ordered_witness :
  exists stats,
    (getUserStats january (lit "telegram") (lit "42") threeMessages).1
    = Returns stats
    /\ 0 <= daily stats <= weekly stats
    /\ weekly stats <= allTime stats
    /\ 0 <= monthly stats <= allTime stats.
Proof.
  apply (user_figures_ordered january (lit "telegram") (lit "42")
           threeMessages).
  - apply TrackingMore.wellFormed_trackAll, TrackingMore.wellFormed_empty.
  - reflexivity.
  - reflexivity.
  - reflexivity.
Defined.

End StatsMore.

(** ** The routes *)

Module RoutesFacts.
Import D1 Tracking TrackingFacts Stats StatsFacts Api Shape Routes Samples.

Ltac solve_elem :=
  unfold supportedPlatforms, periods; rewrite ?elem_of_cons; auto 10.

Lemma supported_platform (platform : jsstring) :
  platform ∈ supportedPlatforms ->
  toLowerCase platform = platform /\ invalidPlatform platform = false.
Proof.
  unfold supportedPlatforms. intros Hin.
  repeat (apply elem_of_cons in Hin as [->|Hin]; [by split|]).
  by apply elem_of_nil in Hin.
Qed.

Lemma includes_true (x : jsstring) (l : list jsstring) :
  x ∈ l -> includes x l = true.
Proof. intros Hin. by apply bool_decide_eq_true. Qed.

Lemma includes_false (x : jsstring) (l : list jsstring) :
  x ∉ l -> includes x l = false.
Proof. intros Hout. by apply bool_decide_eq_false. Qed.

(** With a supported platform and period and a limit that reads as a number
    of at least 1, the leaderboard route answers 200: the limit it reports is
    the number read, capped at 100; the rows are those of the period, in
    order, as many as the smaller of the limit and the number of qualifying
    users, one at most for a user, each with the stored name and the sums of
    the user's stored counts and lengths of the period, and no qualifying
    user left out ranks above a row returned; [count] is their number; the
    two tables are not changed. *)
Theorem leaderboard_route_answers (clk : clock) (platform : jsstring)
    (period limitQuery : option jsstring) (db : database) (n : Z) :
  platform ∈ supportedPlatforms ->
  orElse period (lit "all") ∈ periods ->
  atMost100 (parseInt (orElse limitQuery (lit "10"))) = Int n ->
  1 <= n ->
  exists rows db',
    leaderboardRoute clk platform period limitQuery db
    = (Success platform (orElse period (lit "all")) (Int n) rows
         (Z.of_nat (length rows)), db')
    /\ n <= 100
    /\ ranked n db platform (periodFilter clk (orElse period (lit "all"))) rows
    /\ users db' = users db /\ chat_counter db' = chat_counter db.
Proof.
  intros Hplatform Hperiod Hlimit Hpos.
  pose proof (ApiFacts.atMost100_capped _ _ Hlimit) as Hcap.
  destruct (supported_platform platform Hplatform) as [Hlower Hvalid].
  unfold leaderboardRoute.
  rewrite (includes_true _ _ Hplatform), (includes_true _ _ Hperiod), Hlimit.
  cbn [negb].
  unfold getDailyLeaderboard, getWeeklyLeaderboard, getMonthlyLeaderboard,
    getAllTimeLeaderboard.
  rewrite !leaderboard_valid by (done || lia). rewrite Hlower.
  unfold periodFilter, targetDate.
  repeat case_bool_decide; do 2 eexists;
    (split; [reflexivity|]); (split; [done|]);
    (split; [first [by apply dailyQuery_ranked | by apply summedQuery_ranked]
            | done]).
Qed.

Lemma leaderboard_route_answers_witness :
  exists rows db',
    leaderboardRoute january (lit "telegram") (Some (lit "weekly"))
      (Some (lit "500")) threeMessages
    = (Success (lit "telegram") (orElse (Some (lit "weekly")) (lit "all"))
         (Int 100) rows (Z.of_nat (length rows)), db')
    /\ 100 <= 100
    /\ ranked 100 threeMessages (lit "telegram")
         (periodFilter january (orElse (Some (lit "weekly")) (lit "all"))) rows
    /\ users db' = users threeMessages
    /\ chat_counter db' = chat_counter threeMessages.
Proof.
  apply (leaderboard_route_answers january (lit "telegram")
           (Some (lit "weekly")) (Some (lit "500")) threeMessages 100).
  - solve_elem.
  - solve_elem.
  - reflexivity.
  - lia.
Defined.

(** The routes [/api/stats/:platform] and [/api/user/:platform/:userId]
    answer 400 exactly for an unsupported platform or a blank user
    identifier, and 200 with what [getPlatformStats] and [getUserStats]
    return otherwise; the validation inside those functions never fails
    behind the routes, so there is no 500 from it. *)
Theorem read_routes_answer (clk : clock) (platform userId : jsstring)
    (db : database) :
  (platform ∉ supportedPlatforms ->
   statsRoute clk platform db = (Failed "INVALID_PLATFORM" 400, db)
   /\ userRoute clk platform userId db = (Failed "INVALID_PLATFORM" 400, db))
  /\ (platform ∈ supportedPlatforms ->
      (exists stats,
         (getPlatformStats clk platform db).1 = Returns stats
         /\ (statsRoute clk platform db).1 = Ok stats)
      /\ (blank userId = true ->
          userRoute clk platform userId db = (Failed "MISSING_USER_ID" 400, db))
      /\ (blank userId = false ->
          exists stats,
            (getUserStats clk platform userId db).1 = Returns stats
            /\ (userRoute clk platform userId db).1 = Ok stats)).
Proof.
  split.
  - intros Hout. unfold statsRoute, userRoute.
    by rewrite (includes_false _ _ Hout).
  - intros Hin. destruct (supported_platform platform Hin) as [_ Hvalid].
    unfold statsRoute, userRoute. rewrite (includes_true _ _ Hin).
    cbn [negb]. split; [|split].
    + unfold getPlatformStats, validateDatabaseParams. rewrite Hvalid.
      simpl. eauto.
    + by intros ->.
    + intros Hblank. rewrite Hblank. unfold getUserStats.
      rewrite Hvalid, Hblank. simpl. eauto.
Qed.

Lemma read_routes_answer_witness :
  statsRoute january (lit "Telegram") threeMessages
  = (Failed "INVALID_PLATFORM" 400, threeMessages)
  /\ userRoute january (lit "telegram") (lit " ") threeMessages
     = (Failed "MISSING_USER_ID" 400, threeMessages).
Proof.
  split.
  - apply (read_routes_answer january (lit "Telegram") (lit "42")
             threeMessages).
    intros Hin.
    repeat (apply elem_of_cons in Hin as [Hin|Hin]; [discriminate|]).
    by apply elem_of_nil in Hin.
  - apply (read_routes_answer january (lit "telegram") (lit " ")
             threeMessages).
    + solve_elem.
    + reflexivity.
Defined.

(** *** The Discord webhook *)





End RoutesFacts.

(** ** Short texts *)

Module ShortTextFacts.
Import Regex RegexSize Security.

Lemma nullable_shortest (r : regex) :
  nullable r = true -> shortest r = Some 0%nat.
Proof.
  induction r as [| |p|r1 IH1 r2 IH2|r1 IH1 r2 IH2|r IH]; simpl; try done.
  - intros [H1 H2]%andb_true_iff. by rewrite IH1, IH2.
  - intros [H|H]%orb_true_iff.
    + rewrite IH1 by done. by destruct (shortest r2).
    + rewrite IH2 by done. destruct (shortest r1) as [a|]; [|done].
      by rewrite Nat.min_0_r.
Qed.

(** A derivative matches strings at most one unit shorter. *)
Lemma shortest_deriv (c : N) (r : regex) (k : nat) :
  shortest (deriv c r) = Some k ->
  exists m, shortest r = Some m /\ (m <= S k)%nat.
Proof.
  revert k.
  induction r as [| |p|r1 IH1 r2 IH2|r1 IH1 r2 IH2|r IH]; intros k; simpl.
  - done.
  - done.
  - destruct (p c); simpl; [|done]. intros [= <-]. eauto.
  - assert (Hseq : forall k, shortest (Seq (deriv c r1) r2) = Some k ->
        exists m, shortest (Seq r1 r2) = Some m /\ (m <= S k)%nat).
    { intros k0. simpl.
      destruct (shortest (deriv c r1)) as [a|] eqn:Ha; [|done].
      destruct (shortest r2) as [b|]; [|done]. intros [= <-].
      destruct (IH1 a eq_refl) as (m1 & -> & Hm1).
      exists (m1 + b)%nat. split; [done|lia]. }
    destruct (nullable r1) eqn:Hnull; [|apply Hseq].
    simpl. simpl in Hseq.
    destruct (shortest (deriv c r1)) as [a|] eqn:Ha.
    + destruct (shortest r2) as [b|] eqn:Hb.
      * destruct (shortest (deriv c r2)) as [b'|] eqn:Hb'.
        -- intros [= <-]. destruct (Hseq _ eq_refl) as (m & Hm & Hle).
           exists m. split; [done|].
           destruct (IH2 b' eq_refl) as (m2 & [= <-] & Hm2).
           rewrite (nullable_shortest r1 Hnull) in Hm.
           injection Hm as <-. simpl. lia.
        -- intros [= <-]. apply (Hseq _ eq_refl).
      * intros Hk. destruct (IH2 k Hk) as (m2 & Hm2 & _). done.
    + intros Hk. destruct (IH2 k Hk) as (m2 & -> & Hm2).
      rewrite (nullable_shortest r1 Hnull). exists m2. split; [done|lia].
  - destruct (shortest (deriv c r1)) as [a|] eqn:Ha;
      destruct (shortest (deriv c r2)) as [b|] eqn:Hb; intros [= <-].
    + destruct (IH1 a eq_refl) as (m1 & -> & Hm1).
      destruct (IH2 b eq_refl) as (m2 & -> & Hm2).
      eexists. split; [done|lia].
    + destruct (IH1 _ eq_refl) as (m1 & -> & Hm1).
      destruct (shortest r2); eexists; (split; [done|lia]).
    + destruct (IH2 _ eq_refl) as (m2 & -> & Hm2).
      destruct (shortest r1); eexists; (split; [done|lia]).
  - intros _. exists 0%nat. split; [done|lia].
Qed.

Lemma accepts_shortest (r : regex) (s : jsstring) :
  accepts r s = true ->
  exists m, shortest r = Some m /\ (m <= length s)%nat.
Proof.
  unfold accepts. revert r. induction s as [|c s IH]; intros r; simpl.
  - intros Hnull. exists 0%nat. by rewrite nullable_shortest.
  - intros Hacc. destruct (IH _ Hacc) as (k & Hk & Hle).
    destruct (shortest_deriv c r k Hk) as (m & Hm & Hle').
    exists m. split; [done|lia].
Qed.

Lemma test_shortest (r : regex) (s : jsstring) (m : nat) :
  shortest r = Some m -> test r s = true -> (m <= length s)%nat.
Proof.
  intros Hm Htest. unfold test in Htest.
  apply accepts_shortest in Htest as (k & Hk & Hle).
  simpl in Hk. rewrite Hm in Hk. injection Hk as <-. lia.
Qed.

Lemma suspicious_length (s : jsstring) :
  suspicious s = true -> (6 <= length s)%nat.
Proof.
  unfold suspicious, suspiciousPatterns. cbn [existsb]. intros H.
  repeat (apply orb_true_iff in H as [H|H];
          [eapply test_shortest in H; [|vm_compute; reflexivity]; lia|]).
  done.
Qed.

Lemma repeatedChars_length (s : jsstring) :
  repeatedChars s = true -> (11 <= length s)%nat.
Proof.
  intros Hflood. apply SecurityFacts.repeatedChars_spec in Hflood.
  destruct Hflood as (pre & c & post & _ & ->).
  rewrite !length_app, length_replicate. lia.
Qed.

(** A text of fewer than 6 code units fires no heuristic: all three flags are
    false and the score is 0.  A text reported as a flood has at least 11
    code units, one with suspicious content at least 6. *)
Theorem short_text_scores_nothing (s : jsstring) :
  ((length s < 6)%nat ->
   detectAbuse (Some s)
   = {| isSpam := false; isFlood := false;
        containsSuspiciousContent := false; score := 0 |})
  /\ (isFlood (detectAbuse (Some s)) = true -> (11 <= length s)%nat)
  /\ (containsSuspiciousContent (detectAbuse (Some s)) = true ->
      (6 <= length s)%nat).
Proof.
  split; [|split].
  - intros Hshort. destruct s as [|c s]; [done|]. unfold detectAbuse.
    destruct (repeatedChars (c :: s)) eqn:Hflood;
      [apply repeatedChars_length in Hflood; lia|].
    destruct (suspicious (c :: s)) eqn:Hsusp;
      [apply suspicious_length in Hsusp; lia|].
    unfold excessiveCaps, excessiveEmoji.
    rewrite (proj2 (Z.ltb_ge 10 _)) by lia.
    rewrite (proj2 (Z.ltb_ge 5 _)) by lia.
    by rewrite !andb_false_r.
  - destruct s as [|c s]; [done|]. apply repeatedChars_length.
  - destruct s as [|c s]; [done|]. apply suspicious_length.
Qed.

Lemma short_text_scores_nothing_witness :
  detectAbuse (Some (lit "AAAAA"))
  = {| isSpam := false; isFlood := false;
       containsSuspiciousContent := false; score := 0 |}.
Proof.
  apply (short_text_scores_nothing (lit "AAAAA")). simpl. lia.
Defined.

End ShortTextFacts.
